(** * NeuroScout: the saved-projects store (src/services/storage.ts)

    A shallow embedding of the four operations of the store,
    [getSavedProjects], [saveProject], [removeProject] and
    [isProjectSaved], together with the part of the browser platform they
    run on: JavaScript values as produced by [JSON.parse], exceptions and
    [try]/[catch], and the [localStorage] object.

    The store is written against an arbitrary JSON codec (class [JSON]);
    its properties are proved for every codec, under the round-trip law
    [JSONLaws] where a property needs it.  Module [JSONText] gives a
    codec for the textual JSON format, and [JSONTextFacts] proves that
    it obeys the law. *)

From Stdlib Require Import ZArith String Ascii List Lia Bool.
From Stdlib Require Import Decimal DecimalFacts DecimalPos DecimalZ.
From stdpp Require Import gmap strings.
Import ListNotations.

Local Open Scope string_scope.
Local Open Scope list_scope.

(** ** JavaScript values *)

#[local] Unset Elimination Schemes.

(** The values [JSON.parse] can return.  Numbers are restricted to
    integers; an object lists its own properties in creation order. *)
Inductive value : Type :=
| VNull
| VBool (b : bool)
| VNum (n : Z)
| VStr (s : string)
| VArr (elems : list value)
| VObj (props : list (string * value)).

#[local] Set Elimination Schemes.

(** The exceptions the store can meet. *)
Inductive exn : Type :=
| SyntaxError    (* JSON.parse on a text that is not JSON *)
| TypeError      (* property read on null, call of a non-function, spread of a non-iterable *)
| DOMException.  (* localStorage: access denied, quota exceeded *)

(** Outcome of evaluating a JavaScript expression. *)
Inductive completion (A : Type) : Type :=
| Normal (a : A)
| Throw (e : exn).
Arguments Normal {A} a.
Arguments Throw {A} e.

Definition is_normal {A} (c : completion A) : bool :=
  match c with Normal _ => true | Throw _ => false end.

(** ** The data model of src/types.ts *)

Inductive DifficultyLevel : Type := Beginner | Intermediate | Advanced.

Record ProjectIdea : Type := mkProjectIdea {
  id : string;
  title : string;
  oneLiner : string;
  description : string;
  difficulty : DifficultyLevel;
  domain : string;
  keyFeatures : list string;
  techStack : list string
}.

(** The string value of each member of the enum. *)
Definition js_of_difficulty (d : DifficultyLevel) : value :=
  match d with
  | Beginner => VStr "Beginner"
  | Intermediate => VStr "Intermediate"
  | Advanced => VStr "Advanced"
  end.

(** A [ProjectIdea] as the object the program holds at run time. *)
Definition js_of_idea (p : ProjectIdea) : value :=
  VObj [ ("id", VStr (id p));
         ("title", VStr (title p));
         ("oneLiner", VStr (oneLiner p));
         ("description", VStr (description p));
         ("difficulty", js_of_difficulty (difficulty p));
         ("domain", VStr (domain p));
         ("keyFeatures", VArr (map VStr (keyFeatures p)));
         ("techStack", VArr (map VStr (techStack p))) ].

(** A [ProjectIdea[]]. *)
Definition js_of_ideas (c : list ProjectIdea) : value :=
  VArr (map js_of_idea c).

(** ** Property access, strict equality and the array methods used *)

(** First property named [k] among the own properties of an object. *)
Fixpoint lookup_prop (k : string) (props : list (string * value)) : option value :=
  match props with
  | [] => None
  | (k', v) :: rest => if String.eqb k' k then Some v else lookup_prop k rest
  end.

(** [p.id]: [None] is undefined.  Reading a property of null throws;
    booleans, numbers, strings and arrays have no property of that name. *)
Definition get_id (p : value) : completion (option value) :=
  match p with
  | VNull => Throw TypeError
  | VObj props => Normal (lookup_prop "id" props)
  | _ => Normal None
  end.

(** [x === s] for a string [s]: true only for the same string. *)
Definition strict_eq_string (x : option value) (s : string) : bool :=
  match x with
  | Some (VStr s') => String.eqb s' s
  | _ => false
  end.

(** [p => p.id === i] *)
Definition id_is (i : string) (p : value) : completion bool :=
  match get_id p with
  | Normal x => Normal (strict_eq_string x i)
  | Throw e => Throw e
  end.

(** [p => p.id !== i] *)
Definition id_is_not (i : string) (p : value) : completion bool :=
  match get_id p with
  | Normal x => Normal (negb (strict_eq_string x i))
  | Throw e => Throw e
  end.

(** [Array.prototype.some]: stops at the first element the callback
    accepts; an exception of the callback ends the iteration. *)
Fixpoint Array_some (f : value -> completion bool) (l : list value) : completion bool :=
  match l with
  | [] => Normal false
  | x :: rest =>
      match f x with
      | Normal true => Normal true
      | Normal false => Array_some f rest
      | Throw e => Throw e
      end
  end.

(** [Array.prototype.filter]: calls the callback on every element. *)
Fixpoint Array_filter (f : value -> completion bool) (l : list value) : completion (list value) :=
  match l with
  | [] => Normal []
  | x :: rest =>
      match f x with
      | Normal keep =>
          match Array_filter f rest with
          | Normal kept => Normal (if keep then x :: kept else kept)
          | Throw e => Throw e
          end
      | Throw e => Throw e
      end
  end.

(** [saved.some(f)]: only an array has the method; on any other JSON
    value the call is a TypeError. *)
Definition some_of (saved : value) (f : value -> completion bool) : completion bool :=
  match saved with
  | VArr l => Array_some f l
  | _ => Throw TypeError
  end.

(** [saved.filter(f)] *)
Definition filter_of (saved : value) (f : value -> completion bool) : completion value :=
  match saved with
  | VArr l =>
      match Array_filter f l with
      | Normal kept => Normal (VArr kept)
      | Throw e => Throw e
      end
  | _ => Throw TypeError
  end.

(** The elements [...saved] spreads: those of an array, the characters
    of a string; nothing else is iterable. *)
Definition iterate (saved : value) : completion (list value) :=
  match saved with
  | VArr l => Normal l
  | VStr s => Normal (map (fun c => VStr (String c EmptyString)) (list_ascii_of_string s))
  | _ => Throw TypeError
  end.

(** [[x, ...saved]] *)
Definition cons_spread (x saved : value) : completion value :=
  match iterate saved with
  | Normal l => Normal (VArr (x :: l))
  | Throw e => Throw e
  end.

(** ** The platform: localStorage, the console, the persistence medium *)

(** What the operations can observe and change: the storage area, the
    calls made to [setItem] and the messages sent to [console.error]
    (both newest first). *)
Record World : Type := mkWorld {
  localStorage : gmap string string;
  setItem_calls : list (string * string);
  console : list (string * exn)
}.

(** The state of the persistence medium during one operation: whether a
    read is refused (storage disabled, access denied) and which writes
    are refused (quota exceeded, privacy mode). *)
Record Medium : Type := mkMedium {
  getItem_throws : bool;
  setItem_throws : string -> string -> bool
}.

(** Computations: they read the medium, change the world, and end
    normally or by an exception. *)
Definition M (A : Type) : Type := Medium -> World -> completion A * World.

Definition ret {A} (a : A) : M A := fun _ w => (Normal a, w).

Definition bind {A B} (c : M A) (k : A -> M B) : M B :=
  fun m w =>
    match c m w with
    | (Normal a, w') => k a m w'
    | (Throw e, w') => (Throw e, w')
    end.

(** A pure expression inside a computation. *)
Definition lift {A} (c : completion A) : M A := fun _ w => (c, w).

(** [try { body } catch (e) { handler }]: the effects of [body] up to
    the exception are kept. *)
Definition try_catch {A} (body : M A) (handler : exn -> M A) : M A :=
  fun m w =>
    match body m w with
    | (Normal a, w') => (Normal a, w')
    | (Throw e, w') => handler e m w'
    end.

Notation "x <- c ;; k" := (bind c (fun x => k))
  (at level 100, c at next level, right associativity).
Notation "c ;;; k" := (bind c (fun _ => k))
  (at level 100, right associativity).

(** [localStorage.getItem(k)]: the stored string, or null. *)
Definition localStorage_getItem (k : string) : M (option string) :=
  fun m w =>
    if getItem_throws m then (Throw DOMException, w)
    else (Normal (localStorage w !! k), w).

(** [localStorage.setItem(k, v)] *)
Definition localStorage_setItem (k v : string) : M unit :=
  fun m w =>
    if setItem_throws m k v then
      (Throw DOMException,
       mkWorld (localStorage w) ((k, v) :: setItem_calls w) (console w))
    else
      (Normal tt,
       mkWorld (<[k := v]> (localStorage w)) ((k, v) :: setItem_calls w) (console w)).

(** [console.error(msg, e)] *)
Definition console_error (msg : string) (e : exn) : M unit :=
  fun _ w =>
    (Normal tt, mkWorld (localStorage w) (setItem_calls w) ((msg, e) :: console w)).

(** Truthiness of a string: only the empty string is falsy. *)
Definition truthy (s : string) : bool := negb (String.eqb s "").

(** ** The JSON codec of the platform *)

Class JSON : Type := {
  JSON_parse : string -> completion value;
  JSON_stringify : value -> string
}.

(** No string occurs twice in [l]. *)
Fixpoint distinct (l : list string) : bool :=
  match l with
  | [] => true
  | k :: rest => negb (existsb (String.eqb k) rest) && distinct rest
  end.

(** [Number.MAX_SAFE_INTEGER]: up to it, every integer is a number of
    the language. *)
Definition MAX_SAFE_INTEGER : Z := 9007199254740991.

(** The values a program can hold: every number within the safe range
    and, in every object, each key once. *)
Fixpoint well_formed (v : value) : bool :=
  match v with
  | VNum n => (Z.abs n <=? MAX_SAFE_INTEGER)%Z
  | VArr l => forallb well_formed l
  | VObj props =>
      distinct (map fst props) && forallb (fun kv => well_formed (snd kv)) props
  | _ => true
  end.

(** What the store relies on: [JSON.parse] reads back the value
    [JSON.stringify] wrote, and [JSON.stringify] never returns the empty
    string. *)
Class JSONLaws (J : JSON) : Prop := {
  parse_stringify :
    forall v, well_formed v = true -> JSON_parse (JSON_stringify v) = Normal v;
  stringify_not_empty :
    forall v, JSON_stringify v <> ""
}.

(** ** Items and collections

    The vocabulary of the specification, on the values of the program. *)

(** The identifier of an Item: the string under its key [id]. *)
Definition item_id (v : value) : option string :=
  match v with
  | VObj props =>
      match lookup_prop "id" props with
      | Some (VStr s) => Some s
      | _ => None
      end
  | _ => None
  end.

(** An Item: an object a program can hold, with a string [id]; the rest
    of it is payload. *)
Definition is_item (v : value) : bool :=
  well_formed v && match item_id v with Some _ => true | None => false end.

(** A collection: a sequence of Items. *)
Definition collection (l : list value) : bool := forallb is_item l.

(** The Item [v] has the identifier [i]. *)
Definition has_id (i : string) (v : value) : bool :=
  match item_id v with
  | Some j => String.eqb j i
  | None => false
  end.

(** How many Items of [l] have the identifier [i]. *)
Definition count_id (i : string) (l : list value) : nat :=
  length (List.filter (has_id i) l).

(** The collection [l] without the Items whose identifier is [i]. *)
Definition without_id (i : string) (l : list value) : list value :=
  List.filter (fun v => negb (has_id i v)) l.

(** A medium on which reads succeed. *)
Definition reads (m : Medium) : Prop := getItem_throws m = false.

(** A medium on which writes succeed. *)
Definition writes (m : Medium) : Prop := forall k v, setItem_throws m k v = false.

(** ** src/services/storage.ts *)

Definition STORAGE_KEY : string := "neuroscout_saved_projects".

(** The raw value persisted under the key of the store. *)
Definition stored (w : World) : option string := localStorage w !! STORAGE_KEY.

(** What a failed operation leaves behind: a message on the console. *)
Definition logged (msg : string) (e : exn) (w : World) : World :=
  mkWorld (localStorage w) (setItem_calls w) ((msg, e) :: console w).

(** What a call of [setItem] on the key of the store leaves behind,
    accepted or refused. *)
Definition written (accepted : bool) (v : string) (w : World) : World :=
  mkWorld (if accepted then <[STORAGE_KEY := v]> (localStorage w) else localStorage w)
          ((STORAGE_KEY, v) :: setItem_calls w) (console w).

Section Store.
Context {J : JSON}.

Definition getSavedProjects : M value :=
  try_catch
    (data <- localStorage_getItem STORAGE_KEY ;;
     match data with
     | Some s => if truthy s then lift (JSON_parse s) else ret (VArr [])
     | None => ret (VArr [])
     end)
    (fun e =>
       console_error "Failed to load projects" e ;;;
       ret (VArr [])).

Definition saveProject (idea : ProjectIdea) : M bool :=
  try_catch
    (saved <- getSavedProjects ;;
     dup <- lift (some_of saved (id_is (id idea))) ;;
     if dup : bool then ret false
     else
       updated <- lift (cons_spread (js_of_idea idea) saved) ;;
       localStorage_setItem STORAGE_KEY (JSON_stringify updated) ;;;
       ret true)
    (fun e =>
       console_error "Failed to save project" e ;;;
       ret false).

Definition removeProject (i : string) : M unit :=
  try_catch
    (saved <- getSavedProjects ;;
     updated <- lift (filter_of saved (id_is_not i)) ;;
     localStorage_setItem STORAGE_KEY (JSON_stringify updated))
    (fun e => console_error "Failed to remove project" e).

Definition isProjectSaved (i : string) : M bool :=
  saved <- getSavedProjects ;;
  lift (some_of saved (id_is i)).

(** [list()] returns the sequence [l]. *)
Definition lists (m : Medium) (w : World) (l : list value) : Prop :=
  fst (getSavedProjects m w) = Normal (VArr l).

(** The text [raw] is a serialized collection of Items. *)
Definition serialized_collection (raw : string) : Prop :=
  exists l, JSON_parse raw = Normal (VArr l) /\ collection l = true.

(** The persisted value is absent, or the text of a collection in which
    no identifier occurs twice. *)
Definition persists_collection (w : World) : Prop :=
  stored w = None \/
  exists l, collection l = true /\ (forall i, count_id i l <= 1) /\
            stored w = Some (JSON_stringify (VArr l)).

(** *** The states the store can reach *)

(** The two mutations the presentation layer issues. *)
Inductive operation : Type :=
| Add (idea : ProjectIdea)
| Remove (i : string).

Definition perform (o : operation) (m : Medium) (w : World) : World :=
  match o with
  | Add idea => snd (saveProject idea m w)
  | Remove i => snd (removeProject i m w)
  end.

(** Worlds reached from one where nothing is persisted under the key,
    by operations that each meet a medium in any state. *)
Inductive reachable : World -> Prop :=
| reachable_empty w : stored w = None -> reachable w
| reachable_step w o m : reachable w -> reachable (perform o m w).

End Store.

(** ** src/App.tsx: the handlers that use the store

    Each handler ends with [setSavedIdeas(getSavedProjects())]; the
    result of the computation is the value it hands to [setSavedIdeas]. *)

Section App.
Context {J : JSON}.

Definition toggleSave (idea : ProjectIdea) : M value :=
  isAlreadySaved <- isProjectSaved (id idea) ;;
  (if isAlreadySaved : bool then removeProject (id idea)
   else saveProject idea ;;; ret tt) ;;;
  getSavedProjects.

Definition handleRemove (idea : ProjectIdea) : M value :=
  removeProject (id idea) ;;;
  getSavedProjects.

(** What the user does to the store: a click on the bookmark of a card,
    a click on the bin of a saved card. *)
Inductive interaction : Type :=
| Toggle (idea : ProjectIdea)
| Discard (idea : ProjectIdea).

Definition handle (i : interaction) : M value :=
  match i with
  | Toggle idea => toggleSave idea
  | Discard idea => handleRemove idea
  end.

(** Worlds the application reaches by itself: from one with nothing
    persisted under the key, by interactions that each meet a medium in
    any state. *)
Inductive ui_reachable : World -> Prop :=
| ui_reachable_empty w : stored w = None -> ui_reachable w
| ui_reachable_step w i m : ui_reachable w -> ui_reachable (snd (handle i m w)).

(** A run of store operations, each on its own medium. *)
Definition perform_all (steps : list (operation * Medium)) (w : World) : World :=
  fold_left (fun w' step => perform (fst step) (snd step) w') steps w.

(** The operation cannot see what is persisted: the read is refused, or
    the stored text is empty or not JSON. *)
Definition unreadable (m : Medium) (w : World) : Prop :=
  getItem_throws m = true \/ stored w = Some "" \/
  exists s e, stored w = Some s /\ JSON_parse s = Throw e.

End App.

Definition is_null (v : value) : bool :=
  match v with VNull => true | _ => false end.

(** The values on which [some] and [filter] with the callbacks of the
    store cannot run to their end: anything but an array, and an array
    that holds a null. *)
Definition poisoned (v : value) : bool :=
  match v with
  | VArr l => existsb is_null l
  | _ => true
  end.

(** The storage area of [w'] is that of [w] outside the key of the store. *)
Definition other_keys_kept (w w' : World) : Prop :=
  forall k, k <> STORAGE_KEY -> localStorage w' !! k = localStorage w !! k.

(** ** Sample data *)

(** A medium in working order, and one that refuses every write. *)
Definition healthy : Medium := mkMedium false (fun _ _ => false).
Definition full : Medium := mkMedium false (fun _ _ => true).

(** Nothing stored, nothing logged. *)
Definition fresh : World := mkWorld ∅ [] [].

(** Values some other program left under the key of the store. *)
Definition foreign : World :=
  mkWorld {[ STORAGE_KEY := "{}" ]} [] [].
Definition foreign_array : World :=
  mkWorld {[ STORAGE_KEY := "[42, null]" ]} [] [].

Definition p1 : ProjectIdea :=
  mkProjectIdea "p1" "X" "a summary" "a description" Beginner "vision"
                ["camera"; "alerts"] ["python"].

Definition p2 : ProjectIdea :=
  mkProjectIdea "p2" "Y" "another summary" "another description" Advanced "nlp"
                [] ["react"; "pytorch"].

(** ** A codec for the textual JSON format

    [stringify] writes a value the way [JSON.stringify] does without an
    indent argument; [parse] reads the JSON grammar, white space
    included.  Two parts of the format are outside the fragment: a number
    with a fraction or an exponent, and a [\u] escape above code 255;
    [parse] refuses both. *)
Module JSONText.

Local Open Scope char_scope.

(** *** Strings *)

Definition hex_digit (n : N) : ascii :=
  match n with
  | 0%N => "0" | 1%N => "1" | 2%N => "2" | 3%N => "3"
  | 4%N => "4" | 5%N => "5" | 6%N => "6" | 7%N => "7"
  | 8%N => "8" | 9%N => "9" | 10%N => "a" | 11%N => "b"
  | 12%N => "c" | 13%N => "d" | 14%N => "e" | _ => "f"
  end.

(** One character inside a quoted string. *)
Definition escape (c : ascii) : list ascii :=
  if Ascii.eqb c "034" then ["\"; "034"]
  else if Ascii.eqb c "\" then ["\"; "\"]
  else if Ascii.eqb c "008" then ["\"; "b"]
  else if Ascii.eqb c "009" then ["\"; "t"]
  else if Ascii.eqb c "010" then ["\"; "n"]
  else if Ascii.eqb c "012" then ["\"; "f"]
  else if Ascii.eqb c "013" then ["\"; "r"]
  else if (N_of_ascii c <? 32)%N then
    ["\"; "u"; "0"; "0"; hex_digit (N_of_ascii c / 16); hex_digit (N_of_ascii c mod 16)]
  else [c].

Fixpoint escape_all (s : string) : list ascii :=
  match s with
  | EmptyString => []
  | String c rest => escape c ++ escape_all rest
  end.

Definition quote (s : string) : list ascii :=
  "034" :: escape_all s ++ ["034"].

Definition hex_value (c : ascii) : option N :=
  let n := N_of_ascii c in
  if ((48 <=? n) && (n <=? 57))%N then Some (n - 48)%N
  else if ((97 <=? n) && (n <=? 102))%N then Some (n - 87)%N
  else if ((65 <=? n) && (n <=? 70))%N then Some (n - 55)%N
  else None.

(** The character [\uh1h2h3h4] stands for, when it is below 256. *)
Definition unicode_escape (h1 h2 h3 h4 : ascii) : option ascii :=
  match hex_value h1, hex_value h2, hex_value h3, hex_value h4 with
  | Some a, Some b, Some c, Some d =>
      if ((a =? 0) && (b =? 0))%N then Some (ascii_of_N (16 * c + d)) else None
  | _, _, _, _ => None
  end.

(** The character a one-letter escape stands for. *)
Definition simple_escape (e : ascii) : option ascii :=
  if Ascii.eqb e "034" then Some "034"
  else if Ascii.eqb e "\" then Some "\"
  else if Ascii.eqb e "/" then Some "/"
  else if Ascii.eqb e "b" then Some "008"
  else if Ascii.eqb e "f" then Some "012"
  else if Ascii.eqb e "n" then Some "010"
  else if Ascii.eqb e "r" then Some "013"
  else if Ascii.eqb e "t" then Some "009"
  else None.

Definition push (c : ascii) (o : option (string * list ascii)) : option (string * list ascii) :=
  match o with
  | Some (s, rest) => Some (String c s, rest)
  | None => None
  end.

(** The characters of a string up to its closing quote. *)
Fixpoint parse_chars (s : list ascii) : option (string * list ascii) :=
  match s with
  | [] => None
  | c :: r =>
      if Ascii.eqb c "034" then Some (EmptyString, r)
      else if Ascii.eqb c "\" then
        match r with
        | [] => None
        | e :: r1 =>
            if Ascii.eqb e "u" then
              match r1 with
              | h1 :: h2 :: h3 :: h4 :: r2 =>
                  match unicode_escape h1 h2 h3 h4 with
                  | Some a => push a (parse_chars r2)
                  | None => None
                  end
              | _ => None
              end
            else
              match simple_escape e with
              | Some a => push a (parse_chars r1)
              | None => None
              end
        end
      else if (N_of_ascii c <? 32)%N then None
      else push c (parse_chars r)
  end.

(** *** Numbers *)

Fixpoint print_uint (d : uint) : list ascii :=
  match d with
  | Nil => []
  | D0 d => "0" :: print_uint d
  | D1 d => "1" :: print_uint d
  | D2 d => "2" :: print_uint d
  | D3 d => "3" :: print_uint d
  | D4 d => "4" :: print_uint d
  | D5 d => "5" :: print_uint d
  | D6 d => "6" :: print_uint d
  | D7 d => "7" :: print_uint d
  | D8 d => "8" :: print_uint d
  | D9 d => "9" :: print_uint d
  end.

Definition print_int (z : Z) : list ascii :=
  match Z.to_int z with
  | Pos d => print_uint d
  | Neg d => "-" :: print_uint d
  end.

Definition digit_of (c : ascii) : option (uint -> uint) :=
  if Ascii.eqb c "0" then Some D0
  else if Ascii.eqb c "1" then Some D1
  else if Ascii.eqb c "2" then Some D2
  else if Ascii.eqb c "3" then Some D3
  else if Ascii.eqb c "4" then Some D4
  else if Ascii.eqb c "5" then Some D5
  else if Ascii.eqb c "6" then Some D6
  else if Ascii.eqb c "7" then Some D7
  else if Ascii.eqb c "8" then Some D8
  else if Ascii.eqb c "9" then Some D9
  else None.

(** The longest run of digits at the head of the input. *)
Fixpoint parse_digits (s : list ascii) : uint * list ascii :=
  match s with
  | [] => (Nil, [])
  | c :: r =>
      match digit_of c with
      | Some d => let (ds, rest) := parse_digits r in (d ds, rest)
      | None => (Nil, s)
      end
  end.

(** The integer part of a JSON number: [0], or digits that do not
    start with [0]. *)
Definition json_int (d : uint) : bool :=
  match d with
  | Nil => false
  | D0 Nil => true
  | D0 _ => false
  | _ => true
  end.

Definition parse_number (s : list ascii) : option (value * list ascii) :=
  match s with
  | [] => None
  | c :: r =>
      if Ascii.eqb c "-" then
        let (d, rest) := parse_digits r in
        if json_int d then Some (VNum (Z.of_int (Neg d)), rest) else None
      else
        let (d, rest) := parse_digits s in
        if json_int d then Some (VNum (Z.of_int (Pos d)), rest) else None
  end.

(** *** Values *)

Definition is_ws (c : ascii) : bool :=
  Ascii.eqb c " " || Ascii.eqb c "009" || Ascii.eqb c "010" || Ascii.eqb c "013".

Fixpoint skip_ws (s : list ascii) : list ascii :=
  match s with
  | [] => []
  | c :: r => if is_ws c then skip_ws r else s
  end.

(** [s] without the prefix [kw], when it has it. *)
Fixpoint strip_prefix (kw s : list ascii) : option (list ascii) :=
  match kw with
  | [] => Some s
  | k :: kw' =>
      match s with
      | [] => None
      | c :: r => if Ascii.eqb c k then strip_prefix kw' r else None
      end
  end.

Definition keyword (kw : list ascii) (v : value) (s : list ascii) : option (value * list ascii) :=
  match strip_prefix kw s with
  | Some rest => Some (v, rest)
  | None => None
  end.

(** Defining the property [k] of an object under construction: a key
    already present keeps its place and takes the new value. *)
Fixpoint define_prop (k : string) (v : value) (props : list (string * value)) : list (string * value) :=
  match props with
  | [] => [(k, v)]
  | (k', v') :: rest =>
      if String.eqb k' k then (k', v) :: rest
      else (k', v') :: define_prop k v rest
  end.

Definition define_props (members : list (string * value)) : list (string * value) :=
  fold_left (fun props kv => define_prop (fst kv) (snd kv) props) members [].

Fixpoint parse_value (fuel : nat) (s : list ascii) {struct fuel} : option (value * list ascii) :=
  match fuel with
  | O => None
  | S n =>
      match skip_ws s with
      | [] => None
      | c :: r =>
          if Ascii.eqb c "n" then keyword ["u"; "l"; "l"] VNull r
          else if Ascii.eqb c "t" then keyword ["r"; "u"; "e"] (VBool true) r
          else if Ascii.eqb c "f" then keyword ["a"; "l"; "s"; "e"] (VBool false) r
          else if Ascii.eqb c "034" then
            match parse_chars r with
            | Some (str, rest) => Some (VStr str, rest)
            | None => None
            end
          else if Ascii.eqb c "[" then
            match skip_ws r with
            | [] => None
            | c' :: r' =>
                if Ascii.eqb c' "]" then Some (VArr [], r')
                else
                  match parse_elements n (c' :: r') with
                  | Some (l, rest) => Some (VArr l, rest)
                  | None => None
                  end
            end
          else if Ascii.eqb c "{" then
            match skip_ws r with
            | [] => None
            | c' :: r' =>
                if Ascii.eqb c' "}" then Some (VObj [], r')
                else
                  match parse_members n (c' :: r') with
                  | Some (l, rest) => Some (VObj (define_props l), rest)
                  | None => None
                  end
            end
          else parse_number (c :: r)
      end
  end
with parse_elements (fuel : nat) (s : list ascii) {struct fuel} : option (list value * list ascii) :=
  match fuel with
  | O => None
  | S n =>
      match parse_value n s with
      | None => None
      | Some (v, r) =>
          match skip_ws r with
          | [] => None
          | c :: r' =>
              if Ascii.eqb c "," then
                match parse_elements n r' with
                | Some (l, rest) => Some (v :: l, rest)
                | None => None
                end
              else if Ascii.eqb c "]" then Some ([v], r')
              else None
          end
      end
  end
with parse_members (fuel : nat) (s : list ascii) {struct fuel} : option (list (string * value) * list ascii) :=
  match fuel with
  | O => None
  | S n =>
      match skip_ws s with
      | [] => None
      | c :: r =>
          if Ascii.eqb c "034" then
            match parse_chars r with
            | None => None
            | Some (k, r1) =>
                match skip_ws r1 with
                | [] => None
                | c1 :: r2 =>
                    if Ascii.eqb c1 ":" then
                      match parse_value n r2 with
                      | None => None
                      | Some (v, r3) =>
                          match skip_ws r3 with
                          | [] => None
                          | c3 :: r4 =>
                              if Ascii.eqb c3 "," then
                                match parse_members n r4 with
                                | Some (l, rest) => Some ((k, v) :: l, rest)
                                | None => None
                                end
                              else if Ascii.eqb c3 "}" then Some ([(k, v)], r4)
                              else None
                          end
                      end
                    else None
                end
            end
          else None
      end
  end.

(** [JSON.parse]: one value, then nothing but white space.  The fuel
    exceeds the number of characters, more than the descent can use. *)
Definition parse (s : string) : completion value :=
  let input := list_ascii_of_string s in
  match parse_value (S (length input)) input with
  | Some (v, rest) =>
      match skip_ws rest with
      | [] => Normal v
      | _ :: _ => Throw SyntaxError
      end
  | None => Throw SyntaxError
  end.

(** The items of an array or object, separated by commas. *)
Fixpoint join (items : list (list ascii)) : list ascii :=
  match items with
  | [] => []
  | [x] => x
  | x :: rest => x ++ "," :: join rest
  end.

Fixpoint stringify_value (v : value) : list ascii :=
  match v with
  | VNull => ["n"; "u"; "l"; "l"]
  | VBool true => ["t"; "r"; "u"; "e"]
  | VBool false => ["f"; "a"; "l"; "s"; "e"]
  | VNum n => print_int n
  | VStr s => quote s
  | VArr l => "[" :: join (map stringify_value l) ++ ["]"]
  | VObj props =>
      "{" :: join (map (fun kv => quote (fst kv) ++ ":" :: stringify_value (snd kv)) props)
          ++ ["}"]
  end.

(** [JSON.stringify] *)
Definition stringify (v : value) : string :=
  string_of_list_ascii (stringify_value v).

(** A bound on the fuel [parse_value] uses to read a value back. *)
Fixpoint size (v : value) : nat :=
  match v with
  | VArr l => S (list_sum (map (fun x => S (size x)) l))
  | VObj props => S (list_sum (map (fun kv => S (size (snd kv))) props))
  | _ => 1
  end.

(** The characters a written value can start with. *)
Definition value_start (c : ascii) : bool :=
  Ascii.eqb c "n" || Ascii.eqb c "t" || Ascii.eqb c "f" || Ascii.eqb c "034"
  || Ascii.eqb c "[" || Ascii.eqb c "{" || Ascii.eqb c "-"
  || match digit_of c with Some _ => true | None => false end.

Definition starts_value (s : list ascii) : bool :=
  match s with
  | [] => false
  | c :: _ => value_start c
  end.

Definition starts_number (s : list ascii) : bool :=
  match s with
  | [] => false
  | c :: _ =>
      Ascii.eqb c "-" || match digit_of c with Some _ => true | None => false end
  end.

(** The next character cannot continue a number. *)
Definition ends_number (rest : list ascii) : bool :=
  match rest with
  | [] => true
  | c :: _ => match digit_of c with Some _ => false | None => true end
  end.

(** [parse_value] reads [v] back from its text, whatever follows. *)
Definition reads_back (v : value) : Prop :=
  forall fuel rest,
    size v <= fuel -> ends_number rest = true ->
    parse_value fuel (stringify_value v ++ rest) = Some (v, rest).

End JSONText.

#[export] Instance text_json : JSON :=
  {| JSON_parse := JSONText.parse; JSON_stringify := JSONText.stringify |}.


(** * Properties *)

(** ** Induction on values *)

Lemma value_ind (P : value -> Prop) :
  P VNull ->
  (forall b, P (VBool b)) ->
  (forall n, P (VNum n)) ->
  (forall s, P (VStr s)) ->
  (forall l, Forall P l -> P (VArr l)) ->
  (forall props, Forall (fun kv => P (snd kv)) props -> P (VObj props)) ->
  forall v, P v.
Proof.
  intros Hnull Hbool Hnum Hstr Harr Hobj.
  fix IH 1.
  intros [ | b | n | s | l | props ].
  - exact Hnull.
  - apply Hbool.
  - apply Hnum.
  - apply Hstr.
  - apply Harr. induction l as [ | x l IHl ]; constructor; [ apply IH | exact IHl ].
  - apply Hobj. induction props as [ | [k x] props IHp ]; constructor;
      [ apply IH | exact IHp ].
Qed.

(** ** The textual codec obeys the round-trip law *)

Module JSONTextFacts.
Import JSONText.
Local Open Scope char_scope.

Lemma parse_chars_escape (c : ascii) (tail : list ascii) :
  parse_chars (escape c ++ tail) = push c (parse_chars tail).
Proof.
  destruct c as [[] [] [] [] [] [] [] []]; reflexivity.
Qed.

Lemma parse_chars_quoted (s : string) (rest : list ascii) :
  parse_chars (escape_all s ++ "034" :: rest) = Some (s, rest).
Proof.
  induction s as [ | c s IH ]; [ reflexivity | ].
  cbn [escape_all]. rewrite <- app_assoc, parse_chars_escape, IH. reflexivity.
Qed.

(** *** Numbers *)

Lemma parse_digits_stop (rest : list ascii) :
  ends_number rest = true -> parse_digits rest = (Nil, rest).
Proof.
  destruct rest as [ | c r ]; [ reflexivity | ].
  cbn [ends_number parse_digits]. destruct (digit_of c); [ discriminate | reflexivity ].
Qed.

Lemma parse_digits_print (d : uint) (rest : list ascii) :
  ends_number rest = true -> parse_digits (print_uint d ++ rest) = (d, rest).
Proof.
  intros Hrest. induction d; cbn [print_uint app];
    [ apply parse_digits_stop, Hrest | .. ];
    cbn [parse_digits]; cbv [digit_of]; cbn [Ascii.eqb Bool.eqb];
    rewrite IHd; reflexivity.
Qed.

Lemma nzhead_not_D0 (d d' : uint) : nzhead d <> D0 d'.
Proof. induction d; cbn [nzhead]; try discriminate. exact IHd. Qed.

Lemma unorm_fixed_json_int (d : uint) : unorm d = d -> json_int d = true.
Proof.
  destruct d as [ | d | | | | | | | | | ]; try reflexivity.
  - discriminate.
  - rewrite unorm_D0. unfold unorm. destruct (nzhead d) as [ | u | | | | | | | | | ] eqn:E;
      intros H; try discriminate.
    + injection H as <-. reflexivity.
    + exfalso. exact (nzhead_not_D0 _ _ E).
Qed.

Lemma json_int_pos (p : positive) : json_int (Pos.to_uint p) = true.
Proof.
  apply unorm_fixed_json_int.
  rewrite <- (DecimalPos.Unsigned.to_of (Pos.to_uint p)).
  rewrite DecimalPos.Unsigned.of_to. reflexivity.
Qed.

Lemma parse_number_pos (d : uint) (rest : list ascii) :
  json_int d = true -> ends_number rest = true ->
  parse_number (print_uint d ++ rest) = Some (VNum (Z.of_int (Pos d)), rest).
Proof.
  intros Hd Hrest. pose proof (parse_digits_print d rest Hrest) as Hp.
  destruct d; try discriminate Hd; cbn [print_uint app] in *;
    cbn [parse_number Ascii.eqb Bool.eqb]; rewrite Hp, Hd; reflexivity.
Qed.

Lemma parse_number_neg (d : uint) (rest : list ascii) :
  json_int d = true -> ends_number rest = true ->
  parse_number ("-" :: print_uint d ++ rest) = Some (VNum (Z.of_int (Neg d)), rest).
Proof.
  intros Hd Hrest. cbn [parse_number Ascii.eqb Bool.eqb].
  rewrite (parse_digits_print d rest Hrest), Hd. reflexivity.
Qed.

Lemma parse_number_print (z : Z) (rest : list ascii) :
  ends_number rest = true ->
  parse_number (print_int z ++ rest) = Some (VNum z, rest).
Proof.
  intros Hrest. rewrite <- (DecimalZ.of_to z) at 2.
  unfold print_int. destruct z as [ | p | p ]; cbn [Z.to_int].
  - apply parse_number_pos; [ reflexivity | exact Hrest ].
  - apply parse_number_pos; [ apply json_int_pos | exact Hrest ].
  - apply parse_number_neg; [ apply json_int_pos | exact Hrest ].
Qed.

Lemma print_uint_starts (d : uint) (rest : list ascii) :
  json_int d = true -> starts_value (print_uint d ++ rest) = true.
Proof. destruct d; intros H; try discriminate H; reflexivity. Qed.

Lemma print_int_starts (z : Z) (rest : list ascii) :
  starts_value (print_int z ++ rest) = true.
Proof.
  unfold print_int. destruct z as [ | p | p ]; cbn [Z.to_int];
    [ reflexivity | apply print_uint_starts, json_int_pos | reflexivity ].
Qed.

(** *** White space and the first character of a value *)

Lemma value_start_not_ws (c : ascii) : value_start c = true -> is_ws c = false.
Proof. destruct c as [[] [] [] [] [] [] [] []]; cbv; congruence. Qed.

Lemma value_start_not_close (c : ascii) :
  value_start c = true -> Ascii.eqb c "]" = false /\ Ascii.eqb c "}" = false.
Proof. destruct c as [[] [] [] [] [] [] [] []]; cbv; intuition congruence. Qed.

Lemma skip_ws_starts_value (s : list ascii) :
  starts_value s = true -> skip_ws s = s.
Proof.
  destruct s as [ | c r ]; [ reflexivity | ]. cbn [starts_value skip_ws].
  intros H. rewrite (value_start_not_ws c H). reflexivity.
Qed.

Lemma stringify_value_starts (v : value) (rest : list ascii) :
  starts_value (stringify_value v ++ rest) = true.
Proof.
  destruct v as [ | [] | n | s | l | props ]; try reflexivity.
  apply print_int_starts.
Qed.

(** *** How [parse_value] dispatches on the first character *)

Lemma parse_value_number (n : nat) (s : list ascii) :
  starts_number s = true -> parse_value (S n) s = parse_number s.
Proof.
  destruct s as [ | c r ]; [ discriminate | ].
  destruct c as [[] [] [] [] [] [] [] []]; cbv [starts_number digit_of];
    cbn [Ascii.eqb Bool.eqb orb]; intros H; try discriminate H; reflexivity.
Qed.

Lemma print_int_starts_number (z : Z) (rest : list ascii) :
  starts_number (print_int z ++ rest) = true.
Proof.
  unfold print_int. destruct z as [ | p | p ]; cbn [Z.to_int]; try reflexivity.
  pose proof (json_int_pos p) as H. destruct (Pos.to_uint p); try discriminate H; reflexivity.
Qed.

Lemma parse_value_string (n : nat) (r : list ascii) :
  parse_value (S n) ("034" :: r) =
  match parse_chars r with
  | Some (str, rest) => Some (VStr str, rest)
  | None => None
  end.
Proof. reflexivity. Qed.

Lemma parse_value_array (n : nat) (s : list ascii) :
  starts_value s = true ->
  parse_value (S n) ("[" :: s) =
  match parse_elements n s with
  | Some (l, rest) => Some (VArr l, rest)
  | None => None
  end.
Proof.
  intros H. pose proof (skip_ws_starts_value s H) as Hws.
  destruct s as [ | c r ]; [ discriminate | ]. cbn [starts_value] in H.
  destruct (value_start_not_close c H) as [Hc _].
  change (parse_value (S n) ("[" :: c :: r)) with
    (match skip_ws (c :: r) with
     | [] => None
     | c' :: r' =>
         if Ascii.eqb c' "]" then Some (VArr [], r')
         else match parse_elements n (c' :: r') with
              | Some (l, rest) => Some (VArr l, rest)
              | None => None
              end
     end).
  rewrite Hws, Hc. reflexivity.
Qed.

Lemma parse_value_object (n : nat) (s : list ascii) :
  starts_value s = true ->
  parse_value (S n) ("{" :: s) =
  match parse_members n s with
  | Some (l, rest) => Some (VObj (define_props l), rest)
  | None => None
  end.
Proof.
  intros H. pose proof (skip_ws_starts_value s H) as Hws.
  destruct s as [ | c r ]; [ discriminate | ]. cbn [starts_value] in H.
  destruct (value_start_not_close c H) as [_ Hc].
  change (parse_value (S n) ("{" :: c :: r)) with
    (match skip_ws (c :: r) with
     | [] => None
     | c' :: r' =>
         if Ascii.eqb c' "}" then Some (VObj [], r')
         else match parse_members n (c' :: r') with
              | Some (l, rest) => Some (VObj (define_props l), rest)
              | None => None
              end
     end).
  rewrite Hws, Hc. reflexivity.
Qed.

Lemma parse_elements_step (n : nat) (s : list ascii) :
  parse_elements (S n) s =
  match parse_value n s with
  | None => None
  | Some (v, r) =>
      match skip_ws r with
      | [] => None
      | c :: r' =>
          if Ascii.eqb c "," then
            match parse_elements n r' with
            | Some (l, rest) => Some (v :: l, rest)
            | None => None
            end
          else if Ascii.eqb c "]" then Some ([v], r')
          else None
      end
  end.
Proof. reflexivity. Qed.

Lemma parse_members_step (n : nat) (k : string) (r : list ascii) :
  parse_members (S n) (quote k ++ ":" :: r) =
  match parse_value n r with
  | None => None
  | Some (v, r3) =>
      match skip_ws r3 with
      | [] => None
      | c3 :: r4 =>
          if Ascii.eqb c3 "," then
            match parse_members n r4 with
            | Some (l, rest) => Some ((k, v) :: l, rest)
            | None => None
            end
          else if Ascii.eqb c3 "}" then Some ([(k, v)], r4)
          else None
      end
  end.
Proof.
  unfold quote. cbn [app]. rewrite <- app_assoc. cbn [app].
  change (parse_members (S n) ("034" :: escape_all k ++ "034" :: ":" :: r)) with
    (match parse_chars (escape_all k ++ "034" :: ":" :: r) with
     | None => None
     | Some (k, r1) =>
         match skip_ws r1 with
         | [] => None
         | c1 :: r2 =>
             if Ascii.eqb c1 ":" then
               match parse_value n r2 with
               | None => None
               | Some (v, r3) =>
                   match skip_ws r3 with
                   | [] => None
                   | c3 :: r4 =>
                       if Ascii.eqb c3 "," then
                         match parse_members n r4 with
                         | Some (l, rest) => Some ((k, v) :: l, rest)
                         | None => None
                         end
                       else if Ascii.eqb c3 "}" then Some ([(k, v)], r4)
                       else None
                   end
               end
             else None
         end
     end).
  rewrite parse_chars_quoted. reflexivity.
Qed.

(** *** Arrays and objects *)

Lemma join_cons2 (a b : list ascii) (l : list (list ascii)) :
  join (a :: b :: l) = a ++ "," :: join (b :: l).
Proof. reflexivity. Qed.

Lemma elements_read_back (l : list value) :
  Forall reads_back l -> l <> [] ->
  forall n rest,
    list_sum (map (fun x => S (size x)) l) <= n ->
    parse_elements n (join (map stringify_value l) ++ "]" :: rest) = Some (l, rest).
Proof.
  induction 1 as [ | x l Hx Hl IH ]; [ congruence | ]. intros _ n rest Hn.
  cbn [map list_sum fold_right] in Hn. destruct n as [ | n ]; [ lia | ].
  rewrite parse_elements_step. destruct l as [ | y l ].
  - cbn [map join]. rewrite (Hx n ("]" :: rest)); [ reflexivity | lia | reflexivity ].
  - cbn [map]. rewrite join_cons2, <- app_assoc. cbn [app].
    rewrite (Hx n); [ | lia | reflexivity ].
    cbn [skip_ws is_ws Ascii.eqb Bool.eqb orb].
    change (stringify_value y :: map stringify_value l)
      with (map stringify_value (y :: l)).
    rewrite (IH ltac:(discriminate) n rest); [ reflexivity | ].
    cbn [map list_sum fold_right] in *. lia.
Qed.

Lemma members_read_back (props : list (string * value)) :
  Forall (fun kv => reads_back (snd kv)) props -> props <> [] ->
  forall n rest,
    list_sum (map (fun kv => S (size (snd kv))) props) <= n ->
    parse_members n
      (join (map (fun kv => quote (fst kv) ++ ":" :: stringify_value (snd kv)) props)
         ++ "}" :: rest) = Some (props, rest).
Proof.
  induction 1 as [ | [k x] l Hx Hl IH ]; [ congruence | ]. intros _ n rest Hn.
  cbn [map list_sum fold_right snd fst] in Hn, Hx. destruct n as [ | n ]; [ lia | ].
  destruct l as [ | y l ].
  - cbn [map join fst snd]. rewrite <- app_assoc. cbn [app].
    rewrite parse_members_step, (Hx n ("}" :: rest)); [ reflexivity | lia | reflexivity ].
  - cbn [map fst snd]. rewrite join_cons2, <- !app_assoc. cbn [app].
    rewrite parse_members_step, (Hx n); [ | lia | reflexivity ].
    cbn [skip_ws is_ws Ascii.eqb Bool.eqb orb].
    match goal with
    | |- context [ join (?a :: map ?f l) ] => change (a :: map f l) with (map f (y :: l))
    end.
    rewrite (IH ltac:(discriminate) n rest); [ reflexivity | ].
    cbn [map list_sum fold_right snd] in *. lia.
Qed.

(** *** Distinct keys *)

Lemma existsb_eqb_In (k : string) (l : list string) :
  existsb (String.eqb k) l = true <-> In k l.
Proof.
  rewrite existsb_exists. split.
  - intros (x & Hin & Heq). apply String.eqb_eq in Heq. subst. exact Hin.
  - intros Hin. exists k. split; [ exact Hin | apply String.eqb_refl ].
Qed.

Lemma distinct_NoDup (l : list string) : distinct l = true <-> NoDup l.
Proof.
  induction l as [ | k l IH ]; cbn [distinct].
  - split; [ constructor | reflexivity ].
  - rewrite andb_true_iff, negb_true_iff, IH, <- not_true_iff_false, existsb_eqb_In.
    split.
    + intros [Hk Hl]. constructor; [ rewrite list_elem_of_In; exact Hk | exact Hl ].
    + intros H. inversion H as [ | ? ? Hk Hl ]; subst.
      rewrite list_elem_of_In in Hk. split; assumption.
Qed.

Lemma define_prop_fresh (k : string) (v : value) (props : list (string * value)) :
  ~ In k (map fst props) -> define_prop k v props = props ++ [(k, v)].
Proof.
  induction props as [ | [k' v'] props IH ]; [ reflexivity | ].
  cbn [map fst In define_prop app]. intros Hk.
  destruct (String.eqb k' k) eqn:E.
  - apply String.eqb_eq in E. tauto.
  - rewrite IH; [ reflexivity | tauto ].
Qed.

Lemma define_props_from (members acc : list (string * value)) :
  NoDup (map fst (acc ++ members)) ->
  fold_left (fun props kv => define_prop (fst kv) (snd kv) props) members acc
  = acc ++ members.
Proof.
  revert acc. induction members as [ | [k v] members IH ]; intros acc Hnd.
  - cbn [fold_left]. rewrite app_nil_r. reflexivity.
  - cbn [fold_left fst snd]. rewrite define_prop_fresh.
    + rewrite IH; rewrite <- app_assoc; [ reflexivity | exact Hnd ].
    + rewrite map_app in Hnd. cbn [map fst] in Hnd.
      apply NoDup_app in Hnd. destruct Hnd as (_ & Hdisj & _).
      intros Hin. apply (Hdisj k); [ rewrite list_elem_of_In; exact Hin | left ].
Qed.

Lemma define_props_distinct (members : list (string * value)) :
  distinct (map fst members) = true -> define_props members = members.
Proof.
  intros H. apply distinct_NoDup in H. unfold define_props.
  rewrite define_props_from; [ reflexivity | exact H ].
Qed.

(** *** Every well-formed value is read back *)

Theorem parse_value_stringify_value (v : value) :
  well_formed v = true -> reads_back v.
Proof.
  induction v as [ | b | z | s | l IH | props IH ] using value_ind;
    intros Hwf fuel rest Hfuel Hrest;
    (destruct fuel as [ | n ]; [ cbn [size] in Hfuel; lia | ]).
  - reflexivity.
  - destruct b; reflexivity.
  - cbn [stringify_value]. rewrite parse_value_number by apply print_int_starts_number.
    apply parse_number_print, Hrest.
  - cbn [stringify_value]. unfold quote. cbn [app]. rewrite <- app_assoc. cbn [app].
    rewrite parse_value_string, parse_chars_quoted. reflexivity.
  - cbn [stringify_value app]. rewrite <- app_assoc. cbn [app].
    destruct l as [ | x l ]; [ reflexivity | ].
    rewrite parse_value_array.
    + rewrite elements_read_back; [ reflexivity | | discriminate | ].
      * cbn [well_formed] in Hwf. rewrite forallb_forall in Hwf.
        rewrite Forall_forall in IH |- *. intros y Hy.
        apply IH; [ exact Hy | ]. apply Hwf. rewrite <- list_elem_of_In. exact Hy.
      * cbn [size] in Hfuel. lia.
    + destruct l; cbn [map]; [ cbn [join] | rewrite join_cons2, <- app_assoc ];
        apply stringify_value_starts.
  - cbn [stringify_value app]. rewrite <- app_assoc. cbn [app].
    cbn [well_formed] in Hwf. apply andb_true_iff in Hwf. destruct Hwf as [Hkeys Hwf].
    destruct props as [ | [k x] props ]; [ reflexivity | ].
    rewrite parse_value_object.
    + rewrite members_read_back; [ | | discriminate | ].
      * rewrite define_props_distinct by exact Hkeys. reflexivity.
      * rewrite forallb_forall in Hwf.
        rewrite Forall_forall in IH |- *. intros y Hy.
        apply IH; [ exact Hy | ]. apply Hwf. rewrite <- list_elem_of_In. exact Hy.
      * cbn [size] in Hfuel. lia.
    + destruct props; cbn [map]; [ cbn [join] | rewrite join_cons2 ]; reflexivity.
Qed.

(** *** The fuel [parse] gives is enough *)

Lemma join_length_bound {A} (f : A -> list ascii) (g : A -> nat) (l : list A) :
  Forall (fun a => g a <= length (f a)) l ->
  list_sum (map (fun a => S (g a)) l) <= S (length (join (map f l))).
Proof.
  induction 1 as [ | a l Ha Hl IH ]; cbn [map list_sum fold_right]; [ lia | ].
  destruct l as [ | b l ].
  - cbn [map list_sum fold_right join]. lia.
  - cbn [map]. rewrite join_cons2, length_app. cbn [length].
    cbn [map list_sum fold_right] in IH |- *. lia.
Qed.

Lemma size_le_length (v : value) : size v <= length (stringify_value v).
Proof.
  induction v as [ | b | z | s | l IH | props IH ] using value_ind.
  - cbn. lia.
  - destruct b; cbn; lia.
  - pose proof (print_int_starts z []) as H. rewrite app_nil_r in H.
    cbn [stringify_value size]. destruct (print_int z); [ discriminate | cbn [length]; lia ].
  - cbn. lia.
  - cbn [stringify_value size length]. rewrite length_app. cbn [length].
    pose proof (join_length_bound stringify_value size l IH). lia.
  - cbn [stringify_value size length]. rewrite length_app. cbn [length].
    pose proof (join_length_bound
                  (fun kv => quote (fst kv) ++ ":" :: stringify_value (snd kv))
                  (fun kv => size (snd kv)) props) as H.
    cbv beta in H. apply Nat.le_trans with (S (S (length (join (map (fun kv => quote (fst kv) ++ ":" :: stringify_value (snd kv)) props))))); [ | lia ].
    apply le_n_S, H. eapply Forall_impl; [ exact IH | ].
    intros [k x] Hx. cbn [fst snd] in *. rewrite length_app. cbn [length]. lia.
Qed.

(** *** The round-trip law *)

Theorem parse_stringify_text (v : value) :
  well_formed v = true -> parse (stringify v) = Normal v.
Proof.
  intros Hwf. unfold parse, stringify.
  rewrite list_ascii_of_string_of_list_ascii.
  pose proof (parse_value_stringify_value v Hwf
                (S (length (stringify_value v))) []) as H.
  rewrite app_nil_r in H. rewrite H; [ reflexivity | | reflexivity ].
  pose proof (size_le_length v). lia.
Qed.

Theorem stringify_text_not_empty (v : value) : stringify v <> EmptyString.
Proof.
  unfold stringify. pose proof (stringify_value_starts v []) as H.
  rewrite app_nil_r in H. destruct (stringify_value v); [ discriminate | ].
  cbn [string_of_list_ascii]. discriminate.
Qed.

End JSONTextFacts.

#[export] Instance text_json_laws : JSONLaws text_json.
Proof.
  split.
  - exact JSONTextFacts.parse_stringify_text.
  - exact JSONTextFacts.stringify_text_not_empty.
Qed.

(** ** Items, identifiers and the array methods *)

Lemma id_is_has_id (i : string) (v : value) :
  v <> VNull -> id_is i v = Normal (has_id i v).
Proof.
  intros Hv. unfold id_is, has_id, item_id, get_id, strict_eq_string.
  destruct v as [ | b | n | s | l | props ]; try reflexivity; [ congruence | ].
  destruct (lookup_prop "id" props) as [ [ | | | | | ] | ]; reflexivity.
Qed.

Lemma id_is_not_has_id (i : string) (v : value) :
  v <> VNull -> id_is_not i v = Normal (negb (has_id i v)).
Proof.
  intros Hv. unfold id_is_not, has_id, item_id, get_id, strict_eq_string.
  destruct v as [ | b | n | s | l | props ]; try reflexivity; [ congruence | ].
  destruct (lookup_prop "id" props) as [ [ | | | | | ] | ]; reflexivity.
Qed.

Lemma is_item_not_null (v : value) : is_item v = true -> v <> VNull.
Proof. intros H ->. discriminate H. Qed.

Lemma collection_cons (v : value) (l : list value) :
  collection (v :: l) = true <-> is_item v = true /\ collection l = true.
Proof. unfold collection. cbn [forallb]. apply andb_true_iff. Qed.

Lemma Array_some_collection (i : string) (l : list value) :
  collection l = true -> Array_some (id_is i) l = Normal (existsb (has_id i) l).
Proof.
  induction l as [ | v l IH ]; [ reflexivity | ].
  rewrite collection_cons. intros [Hv Hl]. cbn [Array_some existsb].
  rewrite (id_is_has_id i v (is_item_not_null v Hv)).
  destruct (has_id i v); [ reflexivity | exact (IH Hl) ].
Qed.

Lemma Array_filter_collection (i : string) (l : list value) :
  collection l = true -> Array_filter (id_is_not i) l = Normal (without_id i l).
Proof.
  induction l as [ | v l IH ]; [ reflexivity | ].
  rewrite collection_cons. intros [Hv Hl]. cbn [Array_filter].
  rewrite (id_is_not_has_id i v (is_item_not_null v Hv)), (IH Hl).
  unfold without_id. cbn [List.filter]. destruct (has_id i v); reflexivity.
Qed.

Lemma collection_without_id (i : string) (l : list value) :
  collection l = true -> collection (without_id i l) = true.
Proof.
  unfold collection, without_id. rewrite !forallb_forall.
  intros H v Hv. apply filter_In in Hv. apply H, Hv.
Qed.

Lemma collection_well_formed (l : list value) :
  collection l = true -> well_formed (VArr l) = true.
Proof.
  unfold collection. cbn [well_formed]. rewrite !forallb_forall.
  intros H v Hv. specialize (H v Hv). unfold is_item in H.
  apply andb_true_iff in H. apply H.
Qed.

Lemma well_formed_strings (l : list string) : forallb well_formed (map VStr l) = true.
Proof. induction l as [ | s l IH ]; [ reflexivity | exact IH ]. Qed.

Lemma is_item_js_of_idea (a : ProjectIdea) : is_item (js_of_idea a) = true.
Proof.
  unfold is_item, js_of_idea. cbn.
  rewrite !well_formed_strings. destruct (difficulty a); reflexivity.
Qed.

Lemma has_id_js_of_idea (i : string) (a : ProjectIdea) :
  has_id i (js_of_idea a) = String.eqb (id a) i.
Proof. reflexivity. Qed.

Lemma collection_js_of_ideas (c : list ProjectIdea) :
  collection (map js_of_idea c) = true.
Proof.
  induction c as [ | a c IH ]; [ reflexivity | ].
  cbn [map]. rewrite collection_cons. split; [ apply is_item_js_of_idea | exact IH ].
Qed.

Lemma count_id_existsb (i : string) (l : list value) :
  existsb (has_id i) l = false <-> count_id i l = 0.
Proof.
  unfold count_id. induction l as [ | v l IH ]; [ cbn; tauto | ].
  cbn [existsb List.filter]. destruct (has_id i v); cbn [orb length]; [ | exact IH ].
  split; [ discriminate | lia ].
Qed.

Lemma without_id_absent (i : string) (l : list value) :
  existsb (has_id i) l = false -> without_id i l = l.
Proof.
  unfold without_id. induction l as [ | v l IH ]; [ reflexivity | ].
  cbn [existsb List.filter]. intros H. apply orb_false_iff in H. destruct H as [Hv Hl].
  rewrite Hv, (IH Hl). reflexivity.
Qed.

Lemma without_id_gone (i : string) (l : list value) :
  existsb (has_id i) (without_id i l) = false.
Proof.
  unfold without_id. induction l as [ | v l IH ]; [ reflexivity | ].
  cbn [List.filter]. destruct (has_id i v) eqn:E; cbn [negb existsb]; [ exact IH | ].
  rewrite E, IH. reflexivity.
Qed.

Lemma without_id_sublist (i : string) (l : list value) : sublist (without_id i l) l.
Proof.
  unfold without_id. induction l as [ | v l IH ]; [ constructor | ].
  cbn [List.filter]. destruct (negb (has_id i v)); constructor; exact IH.
Qed.

Lemma has_id_item_id (i : string) (v : value) :
  has_id i v = true <-> item_id v = Some i.
Proof.
  unfold has_id. destruct (item_id v) as [ j | ]; [ | split; discriminate ].
  rewrite String.eqb_eq. split; congruence.
Qed.

Lemma In_without_id (i : string) (l : list value) (v : value) :
  In v (without_id i l) <-> In v l /\ item_id v <> Some i.
Proof.
  unfold without_id. rewrite filter_In, negb_true_iff, <- has_id_item_id.
  rewrite not_true_iff_false. reflexivity.
Qed.

Lemma count_id_without_id (i j : string) (l : list value) :
  count_id j (without_id i l) <= count_id j l.
Proof.
  unfold count_id, without_id. induction l as [ | v l IH ]; [ cbn; lia | ].
  cbn [List.filter]. destruct (has_id i v), (has_id j v) eqn:E; cbn [negb List.filter length];
    rewrite ?E; cbn [length]; lia.
Qed.

(** ** The four operations, case by case *)

Section StoreFacts.
Context {J : JSON}.

Lemma getSavedProjects_cases (m : Medium) (w : World) :
  getSavedProjects m w =
  if getItem_throws m then
    (Normal (VArr []), logged "Failed to load projects" DOMException w)
  else
    match stored w with
    | None => (Normal (VArr []), w)
    | Some s =>
        if truthy s then
          match JSON_parse s with
          | Normal v => (Normal v, w)
          | Throw e => (Normal (VArr []), logged "Failed to load projects" e w)
          end
        else (Normal (VArr []), w)
    end.
Proof.
  unfold getSavedProjects, try_catch, bind, localStorage_getItem, stored.
  destruct (getItem_throws m); [ reflexivity | ].
  destruct (localStorage w !! STORAGE_KEY) as [ s | ]; [ | reflexivity ].
  destruct (truthy s); [ | reflexivity ].
  unfold lift. destruct (JSON_parse s); reflexivity.
Qed.

Lemma getSavedProjects_total (m : Medium) (w : World) :
  exists v, fst (getSavedProjects m w) = Normal v.
Proof.
  rewrite getSavedProjects_cases.
  destruct (getItem_throws m); [ eauto | ].
  destruct (stored w) as [ s | ]; [ | eauto ].
  destruct (truthy s); [ | eauto ].
  destruct (JSON_parse s); eauto.
Qed.

Lemma getSavedProjects_frame (m : Medium) (w : World) :
  localStorage (snd (getSavedProjects m w)) = localStorage w /\
  setItem_calls (snd (getSavedProjects m w)) = setItem_calls w.
Proof.
  rewrite getSavedProjects_cases.
  destruct (getItem_throws m); [ split; reflexivity | ].
  destruct (stored w) as [ s | ]; [ | split; reflexivity ].
  destruct (truthy s); [ | split; reflexivity ].
  destruct (JSON_parse s); split; reflexivity.
Qed.

(** What [getSavedProjects] returns depends on the storage area alone. *)
Lemma getSavedProjects_storage (m : Medium) (w1 w2 : World) :
  localStorage w1 = localStorage w2 ->
  fst (getSavedProjects m w1) = fst (getSavedProjects m w2).
Proof.
  intros H. rewrite !getSavedProjects_cases. unfold stored. rewrite H.
  destruct (getItem_throws m); [ reflexivity | ].
  destruct (localStorage w2 !! STORAGE_KEY) as [ s | ]; [ | reflexivity ].
  destruct (truthy s); [ | reflexivity ].
  destruct (JSON_parse s); reflexivity.
Qed.

Lemma saveProject_cases (idea : ProjectIdea) (m : Medium) (w : World) :
  saveProject idea m w =
  let w1 := snd (getSavedProjects m w) in
  match fst (getSavedProjects m w) with
  | Throw e => (Normal false, logged "Failed to save project" e w1)
  | Normal saved =>
      match some_of saved (id_is (id idea)) with
      | Throw e => (Normal false, logged "Failed to save project" e w1)
      | Normal true => (Normal false, w1)
      | Normal false =>
          match cons_spread (js_of_idea idea) saved with
          | Throw e => (Normal false, logged "Failed to save project" e w1)
          | Normal updated =>
              if setItem_throws m STORAGE_KEY (JSON_stringify updated) then
                (Normal false,
                 logged "Failed to save project" DOMException
                   (written false (JSON_stringify updated) w1))
              else (Normal true, written true (JSON_stringify updated) w1)
          end
      end
  end.
Proof.
  unfold saveProject, try_catch, bind at 1 2. cbv zeta.
  destruct (getSavedProjects m w) as [ [ saved | e ] w1 ]; cbn [fst snd]; [ | reflexivity ].
  unfold lift at 1. destruct (some_of saved (id_is (id idea))) as [ [ | ] | e ];
    [ reflexivity | | reflexivity ].
  unfold bind at 1, lift at 1.
  destruct (cons_spread (js_of_idea idea) saved) as [ updated | e ]; [ | reflexivity ].
  unfold bind, localStorage_setItem.
  destruct (setItem_throws m STORAGE_KEY (JSON_stringify updated)); reflexivity.
Qed.

Lemma removeProject_cases (i : string) (m : Medium) (w : World) :
  removeProject i m w =
  let w1 := snd (getSavedProjects m w) in
  match fst (getSavedProjects m w) with
  | Throw e => (Normal tt, logged "Failed to remove project" e w1)
  | Normal saved =>
      match filter_of saved (id_is_not i) with
      | Throw e => (Normal tt, logged "Failed to remove project" e w1)
      | Normal updated =>
          if setItem_throws m STORAGE_KEY (JSON_stringify updated) then
            (Normal tt,
             logged "Failed to remove project" DOMException
               (written false (JSON_stringify updated) w1))
          else (Normal tt, written true (JSON_stringify updated) w1)
      end
  end.
Proof.
  unfold removeProject, try_catch, bind at 1. cbv zeta.
  destruct (getSavedProjects m w) as [ [ saved | e ] w1 ]; cbn [fst snd]; [ | reflexivity ].
  unfold bind, lift. destruct (filter_of saved (id_is_not i)) as [ updated | e ];
    [ | reflexivity ].
  unfold localStorage_setItem.
  destruct (setItem_throws m STORAGE_KEY (JSON_stringify updated)); reflexivity.
Qed.

Lemma isProjectSaved_cases (i : string) (m : Medium) (w : World) :
  isProjectSaved i m w =
  match fst (getSavedProjects m w) with
  | Throw e => (Throw e, snd (getSavedProjects m w))
  | Normal saved => (some_of saved (id_is i), snd (getSavedProjects m w))
  end.
Proof.
  unfold isProjectSaved, bind, lift.
  destruct (getSavedProjects m w) as [ [ saved | e ] w1 ]; reflexivity.
Qed.

End StoreFacts.

(** The three operations wrapped in [try]/[catch] end normally,
    whatever is stored and whatever the medium does. *)

Lemma saveProject_total {J : JSON} (idea : ProjectIdea) (m : Medium) (w : World) :
  exists b, fst (saveProject idea m w) = Normal b.
Proof.
  rewrite saveProject_cases. cbv zeta.
  destruct (fst (getSavedProjects m w)) as [ saved | e ]; [ | eauto ].
  destruct (some_of saved (id_is (id idea))) as [ [ | ] | e ]; [ eauto | | eauto ].
  destruct (cons_spread (js_of_idea idea) saved) as [ updated | e ]; [ | eauto ].
  destruct (setItem_throws m STORAGE_KEY (JSON_stringify updated)); eauto.
Qed.

Lemma removeProject_total {J : JSON} (i : string) (m : Medium) (w : World) :
  fst (removeProject i m w) = Normal tt.
Proof.
  rewrite removeProject_cases. cbv zeta.
  destruct (fst (getSavedProjects m w)) as [ saved | e ]; [ | reflexivity ].
  destruct (filter_of saved (id_is_not i)) as [ updated | e ]; [ | reflexivity ].
  destruct (setItem_throws m STORAGE_KEY (JSON_stringify updated)); reflexivity.
Qed.

(** ** The operations on a collection *)

Section StoreOnCollections.
Context {J : JSON}.

Lemma saveProject_present (a : ProjectIdea) (l : list value) (m : Medium) (w : World) :
  lists m w l -> collection l = true -> existsb (has_id (id a)) l = true ->
  saveProject a m w = (Normal false, snd (getSavedProjects m w)).
Proof.
  intros Hl Hc Hin. rewrite saveProject_cases. cbv zeta. rewrite Hl.
  cbn [some_of]. rewrite (Array_some_collection _ _ Hc), Hin. reflexivity.
Qed.

Lemma saveProject_absent (a : ProjectIdea) (l : list value) (m : Medium) (w : World) :
  lists m w l -> collection l = true -> existsb (has_id (id a)) l = false ->
  saveProject a m w =
  let s := JSON_stringify (VArr (js_of_idea a :: l)) in
  let w1 := snd (getSavedProjects m w) in
  if setItem_throws m STORAGE_KEY s then
    (Normal false, logged "Failed to save project" DOMException (written false s w1))
  else (Normal true, written true s w1).
Proof.
  intros Hl Hc Hin. rewrite saveProject_cases. cbv zeta. rewrite Hl.
  cbn [some_of]. rewrite (Array_some_collection _ _ Hc), Hin. reflexivity.
Qed.

Lemma removeProject_collection (i : string) (l : list value) (m : Medium) (w : World) :
  lists m w l -> collection l = true ->
  removeProject i m w =
  let s := JSON_stringify (VArr (without_id i l)) in
  let w1 := snd (getSavedProjects m w) in
  if setItem_throws m STORAGE_KEY s then
    (Normal tt, logged "Failed to remove project" DOMException (written false s w1))
  else (Normal tt, written true s w1).
Proof.
  intros Hl Hc. rewrite removeProject_cases. cbv zeta. rewrite Hl.
  cbn [filter_of]. rewrite (Array_filter_collection _ _ Hc). reflexivity.
Qed.

Lemma isProjectSaved_collection (i : string) (l : list value) (m : Medium) (w : World) :
  lists m w l -> collection l = true ->
  isProjectSaved i m w = (Normal (existsb (has_id i) l), snd (getSavedProjects m w)).
Proof.
  intros Hl Hc. rewrite isProjectSaved_cases, Hl. cbn [some_of].
  rewrite (Array_some_collection _ _ Hc). reflexivity.
Qed.

Lemma stored_written (v : string) (w : World) : stored (written true v w) = Some v.
Proof. unfold stored, written. cbn [localStorage]. apply lookup_insert_eq. Qed.

Lemma stored_frame (m : Medium) (w : World) :
  stored (snd (getSavedProjects m w)) = stored w.
Proof. unfold stored. rewrite (proj1 (getSavedProjects_frame m w)). reflexivity. Qed.

Context {L : JSONLaws J}.

Lemma truthy_stringify (v : value) : truthy (JSON_stringify v) = true.
Proof.
  unfold truthy. apply negb_true_iff, String.eqb_neq, stringify_not_empty.
Qed.

(** [list()] reads back what was written under the key. *)
Lemma lists_stored (l : list value) (m : Medium) (w : World) :
  reads m -> collection l = true -> stored w = Some (JSON_stringify (VArr l)) ->
  lists m w l.
Proof.
  intros Hm Hc Hw. unfold lists. rewrite getSavedProjects_cases, Hm, Hw, truthy_stringify.
  rewrite parse_stringify by exact (collection_well_formed l Hc). reflexivity.
Qed.

End StoreOnCollections.

(** ** The invariant of the store *)

Lemma count_id_cons (i : string) (v : value) (l : list value) :
  count_id i (v :: l) = (if has_id i v then 1 else 0) + count_id i l.
Proof. unfold count_id. cbn [List.filter]. destruct (has_id i v); reflexivity. Qed.

Lemma unique_ids_cons (a : ProjectIdea) (l : list value) :
  existsb (has_id (id a)) l = false ->
  (forall i, count_id i l <= 1) ->
  forall i, count_id i (js_of_idea a :: l) <= 1.
Proof.
  intros Ha Hl i. rewrite count_id_cons, has_id_js_of_idea.
  destruct (String.eqb (id a) i) eqn:E; [ | apply Hl ].
  apply String.eqb_eq in E. subst i. apply count_id_existsb in Ha. lia.
Qed.

Lemma unique_ids_without_id (j : string) (l : list value) :
  (forall i, count_id i l <= 1) -> forall i, count_id i (without_id j l) <= 1.
Proof.
  intros Hl i. pose proof (count_id_without_id j i l). specialize (Hl i). lia.
Qed.

Section Invariant.
Context {J : JSON} {L : JSONLaws J}.

Lemma persists_collection_lists (w : World) (m : Medium) :
  persists_collection w ->
  exists l, lists m w l /\ collection l = true /\ forall i, count_id i l <= 1.
Proof.
  intros Hw. destruct (getItem_throws m) eqn:Hm.
  - exists []. unfold lists. rewrite getSavedProjects_cases, Hm.
    repeat split. intros i. cbn. lia.
  - destruct Hw as [ Hw | (l & Hc & Hu & Hw) ].
    + exists []. unfold lists. rewrite getSavedProjects_cases, Hm, Hw.
      repeat split. intros i. cbn. lia.
    + exists l. split; [ apply lists_stored; assumption | split; assumption ].
Qed.

Lemma persists_collection_storage (w w' : World) :
  localStorage w' = localStorage w -> persists_collection w -> persists_collection w'.
Proof. unfold persists_collection, stored. intros ->. tauto. Qed.

Lemma perform_persists_collection (o : operation) (m : Medium) (w : World) :
  persists_collection w -> persists_collection (perform o m w).
Proof.
  intros Hw. destruct (persists_collection_lists w m Hw) as (l & Hl & Hc & Hu).
  pose proof (proj1 (getSavedProjects_frame m w)) as Hframe.
  destruct o as [ a | i ]; cbn [perform].
  - destruct (existsb (has_id (id a)) l) eqn:Ha.
    + rewrite (saveProject_present a l m w Hl Hc Ha). cbn [snd].
      exact (persists_collection_storage _ _ Hframe Hw).
    + rewrite (saveProject_absent a l m w Hl Hc Ha). cbv zeta.
      destruct (setItem_throws m STORAGE_KEY _); cbn [snd].
      * apply (persists_collection_storage w); [ exact Hframe | exact Hw ].
      * right. exists (js_of_idea a :: l). split; [ | split ].
        -- apply collection_cons. split; [ apply is_item_js_of_idea | exact Hc ].
        -- apply unique_ids_cons; assumption.
        -- apply stored_written.
  - rewrite (removeProject_collection i l m w Hl Hc). cbv zeta.
    destruct (setItem_throws m STORAGE_KEY _); cbn [snd].
    + apply (persists_collection_storage w); [ exact Hframe | exact Hw ].
    + right. exists (without_id i l). split; [ | split ].
      * apply collection_without_id, Hc.
      * apply unique_ids_without_id, Hu.
      * apply stored_written.
Qed.

Lemma reachable_persists_collection (w : World) :
  reachable w -> persists_collection w.
Proof.
  induction 1 as [ w Hw | w o m _ IH ].
  - left. exact Hw.
  - apply perform_persists_collection, IH.
Qed.

End Invariant.

(** ** The contract of the store *)

(** C1. In every world reached from one with nothing persisted, by any
    sequence of [saveProject] and [removeProject] calls on media in any
    state, the persisted value is the text of a collection without a
    repeated identifier, and [getSavedProjects] returns a collection that
    holds at most one Item with any given identifier. *)
Theorem reachable_at_most_one_per_id {J : JSON} {L : JSONLaws J} (w : World) :
  reachable w ->
  persists_collection w /\
  forall m, exists l,
    lists m w l /\ collection l = true /\ forall i, count_id i l <= 1.
Proof.
  intros Hw. apply reachable_persists_collection in Hw.
  split; [ exact Hw | ]. intros m. apply persists_collection_lists, Hw.
Qed.

Lemma reachable_at_most_one_per_id_witness :
  let w := perform (Remove "p2") healthy
             (perform (Add p1) full (perform (Add p1) healthy fresh)) in
  reachable w /\
  (persists_collection w /\
   forall m, exists l,
     lists m w l /\ collection l = true /\ forall i, count_id i l <= 1).
Proof.
  cbv zeta.
  assert (Hw : reachable (J := text_json)
                 (perform (Remove "p2") healthy
                    (perform (Add p1) full (perform (Add p1) healthy fresh)))).
  { do 3 apply reachable_step. apply reachable_empty. reflexivity. }
  split; [ exact Hw | ].
  exact (@reachable_at_most_one_per_id text_json text_json_laws _ Hw).
Defined.

(** The operations that have a [try]/[catch]: [getSavedProjects],
    [saveProject] and [removeProject] end normally for every stored
    value, every medium and every argument. *)
Theorem guarded_operations_never_throw {J : JSON}
    (idea : ProjectIdea) (i : string) (m : Medium) (w : World) :
  is_normal (fst (getSavedProjects m w)) = true /\
  is_normal (fst (saveProject idea m w)) = true /\
  is_normal (fst (removeProject i m w)) = true.
Proof.
  destruct (getSavedProjects_total m w) as [v Hv].
  destruct (saveProject_total idea m w) as [b Hb].
  rewrite Hv, Hb, removeProject_total. repeat split.
Qed.

(** C2. [isProjectSaved] has no [try]/[catch] of its own: on a stored
    value that is JSON but not an array, the call of [some] throws a
    TypeError which reaches the caller. *)
Theorem isProjectSaved_throws_on_foreign_value :
  stored foreign = Some "{}" /\
  fst (isProjectSaved (J := text_json) "p1" healthy foreign) = Throw TypeError.
Proof. split; reflexivity. Qed.

(** The same happens on an array that holds a null: reading [p.id]
    throws. *)
Lemma isProjectSaved_throws_on_null_element :
  fst (isProjectSaved (J := text_json) "p1" healthy foreign_array) = Throw TypeError.
Proof. reflexivity. Qed.

(** C3. [getSavedProjects] is declared to return a [ProjectIdea[]] and
    returns an empty array on every other failure, but it returns the
    result of [JSON.parse] unchecked: each of the two stored texts below
    is JSON but no serialized collection of Items, and what comes back
    is the parsed value, an object in one case and an array of a number
    and a null in the other, where the claim says an empty sequence. *)
Lemma getSavedProjects_returns_foreign_value :
  (stored foreign = Some "{}" /\
   ~ serialized_collection (J := text_json) "{}" /\
   fst (getSavedProjects (J := text_json) healthy foreign) = Normal (VObj []) /\
   fst (getSavedProjects (J := text_json) healthy foreign) <> Normal (VArr [])) /\
  (stored foreign_array = Some "[42, null]" /\
   ~ serialized_collection (J := text_json) "[42, null]" /\
   fst (getSavedProjects (J := text_json) healthy foreign_array)
     = Normal (VArr [VNum 42; VNull]) /\
   fst (getSavedProjects (J := text_json) healthy foreign_array) <> Normal (VArr [])).
Proof.
  split.
  - split; [ reflexivity | ]. split; [ | split; [ reflexivity | discriminate ] ].
    intros (l & Hl & _). discriminate Hl.
  - split; [ reflexivity | ]. split; [ | split; [ reflexivity | discriminate ] ].
    intros (l & Hl & Hc). injection Hl as <-. discriminate Hc.
Qed.

(** What [getSavedProjects] does on every world and medium.  It never
    throws and never changes the storage area or calls [setItem].  It
    returns an empty sequence when the read fails, when the key is
    absent, when the stored value is the empty string and when the
    stored value is not JSON.  On a stored value that is JSON it returns
    what [JSON.parse] returned: no branch of the code looks at its
    shape. *)
Theorem getSavedProjects_fails_open {J : JSON} (m : Medium) (w : World) :
  (exists v, fst (getSavedProjects m w) = Normal v) /\
  localStorage (snd (getSavedProjects m w)) = localStorage w /\
  setItem_calls (snd (getSavedProjects m w)) = setItem_calls w /\
  (getItem_throws m = true \/ stored w = None \/ stored w = Some "" \/
   (exists s e, stored w = Some s /\ JSON_parse s = Throw e) ->
   fst (getSavedProjects m w) = Normal (VArr [])) /\
  (forall s v,
     reads m -> stored w = Some s -> s <> "" -> JSON_parse s = Normal v ->
     fst (getSavedProjects m w) = Normal v).
Proof.
  split; [ apply getSavedProjects_total | ].
  split; [ apply getSavedProjects_frame | ].
  split; [ apply getSavedProjects_frame | ].
  rewrite getSavedProjects_cases. split.
  - intros H. destruct (getItem_throws m); [ reflexivity | ].
    destruct H as [ H | [ H | [ H | (s & e & H & He) ] ] ];
      [ discriminate | rewrite H .. ]; try reflexivity.
    destruct (truthy s); [ rewrite He | ]; reflexivity.
  - intros s v Hm Hs Hne Hv. rewrite Hm, Hs, Hv.
    unfold truthy. apply String.eqb_neq in Hne. rewrite Hne. reflexivity.
Qed.

(** The four ways to an empty sequence, and the way past them. *)
Lemma getSavedProjects_fails_open_witness :
  let unreadable_medium := mkMedium true (fun _ _ => false) in
  let blank := mkWorld {[ STORAGE_KEY := "" ]} [] [] in
  let garbled := mkWorld {[ STORAGE_KEY := "[{id: p1}" ]} [] [] in
  fst (getSavedProjects (J := text_json) unreadable_medium foreign) = Normal (VArr []) /\
  fst (getSavedProjects (J := text_json) healthy fresh) = Normal (VArr []) /\
  fst (getSavedProjects (J := text_json) healthy blank) = Normal (VArr []) /\
  fst (getSavedProjects (J := text_json) healthy garbled) = Normal (VArr []) /\
  fst (getSavedProjects (J := text_json) healthy foreign_array)
  = Normal (VArr [VNum 42; VNull]).
Proof.
  cbv zeta. split; [ | split; [ | split; [ | split ] ] ].
  - apply (getSavedProjects_fails_open (J := text_json)). left. reflexivity.
  - apply (getSavedProjects_fails_open (J := text_json)). right. left. reflexivity.
  - apply (getSavedProjects_fails_open (J := text_json)). right. right. left. reflexivity.
  - apply (getSavedProjects_fails_open (J := text_json)). right. right. right.
    exists "[{id: p1}", SyntaxError. split; reflexivity.
  - apply (getSavedProjects_fails_open (J := text_json) healthy foreign_array)
      with (s := "[42, null]"); [ reflexivity | reflexivity | discriminate | reflexivity ].
Defined.

Section Contract.
Context {J : JSON} {L : JSONLaws J}.

(** What [list()] returns once an accepted [saveProject] has written. *)
Lemma lists_after_add (a : ProjectIdea) (l : list value) (m m' : Medium) (w : World) :
  lists m w l -> collection l = true -> existsb (has_id (id a)) l = false ->
  setItem_throws m STORAGE_KEY (JSON_stringify (VArr (js_of_idea a :: l))) = false ->
  reads m' ->
  fst (saveProject a m w) = Normal true /\
  lists m' (snd (saveProject a m w)) (js_of_idea a :: l).
Proof.
  intros Hl Hc Ha Hset Hm'. rewrite (saveProject_absent a l m w Hl Hc Ha). cbv zeta.
  rewrite Hset. cbn [fst snd]. split; [ reflexivity | ].
  apply lists_stored; [ exact Hm' | | apply stored_written ].
  apply collection_cons. split; [ apply is_item_js_of_idea | exact Hc ].
Qed.

(** What [list()] returns once an accepted [removeProject] has written. *)
Lemma lists_after_remove (i : string) (l : list value) (m m' : Medium) (w : World) :
  lists m w l -> collection l = true ->
  setItem_throws m STORAGE_KEY (JSON_stringify (VArr (without_id i l))) = false ->
  reads m' ->
  lists m' (snd (removeProject i m w)) (without_id i l).
Proof.
  intros Hl Hc Hset Hm'. rewrite (removeProject_collection i l m w Hl Hc). cbv zeta.
  rewrite Hset. cbn [snd].
  apply lists_stored; [ exact Hm' | apply collection_without_id, Hc | apply stored_written ].
Qed.

(** A [saveProject] that returns true has written. *)
Lemma saveProject_true_written (a : ProjectIdea) (l : list value) (m : Medium) (w : World) :
  lists m w l -> collection l = true -> fst (saveProject a m w) = Normal true ->
  existsb (has_id (id a)) l = false /\
  setItem_throws m STORAGE_KEY (JSON_stringify (VArr (js_of_idea a :: l))) = false.
Proof.
  intros Hl Hc. destruct (existsb (has_id (id a)) l) eqn:Ha.
  - rewrite (saveProject_present a l m w Hl Hc Ha). discriminate.
  - rewrite (saveProject_absent a l m w Hl Hc Ha). cbv zeta.
    destruct (setItem_throws m STORAGE_KEY _); [ discriminate | split; reflexivity ].
Qed.

End Contract.

(** C4. From a collection that holds neither identifier, [saveProject A]
    then [saveProject B], on media that read and accept the writes,
    both return true, and [getSavedProjects] then returns B, A and the
    former Items, in this order. *)
Theorem add_add_most_recent_first {J : JSON} {L : JSONLaws J}
    (A B : ProjectIdea) (l : list value) (m1 m2 m3 : Medium) (w : World) :
  id A <> id B ->
  lists m1 w l -> collection l = true ->
  count_id (id A) l = 0 -> count_id (id B) l = 0 ->
  writes m1 -> reads m2 -> writes m2 -> reads m3 ->
  fst (saveProject A m1 w) = Normal true /\
  fst (saveProject B m2 (snd (saveProject A m1 w))) = Normal true /\
  lists m3 (snd (saveProject B m2 (snd (saveProject A m1 w))))
    (js_of_idea B :: js_of_idea A :: l).
Proof.
  intros Hne Hl Hc HA HB Hw1 Hr2 Hw2 Hr3.
  apply count_id_existsb in HA. apply count_id_existsb in HB.
  destruct (lists_after_add A l m1 m2 w Hl Hc HA (Hw1 _ _) Hr2) as [Ht1 Hl1].
  split; [ exact Ht1 | ].
  apply lists_after_add; [ exact Hl1 | | | apply Hw2 | exact Hr3 ].
  - apply collection_cons. split; [ apply is_item_js_of_idea | exact Hc ].
  - cbn [existsb]. rewrite has_id_js_of_idea, HB.
    apply String.eqb_neq in Hne. rewrite Hne. reflexivity.
Qed.

Lemma add_add_most_recent_first_witness :
  (id p1 <> id p2 /\
   lists (J := text_json) healthy fresh [] /\ collection [] = true /\
   count_id (id p1) [] = 0 /\ count_id (id p2) [] = 0 /\
   writes healthy /\ reads healthy) /\
  (fst (saveProject (J := text_json) p1 healthy fresh) = Normal true /\
   fst (saveProject (J := text_json) p2 healthy
          (snd (saveProject (J := text_json) p1 healthy fresh))) = Normal true /\
   lists (J := text_json) healthy
     (snd (saveProject (J := text_json) p2 healthy
             (snd (saveProject (J := text_json) p1 healthy fresh))))
     [js_of_idea p2; js_of_idea p1]).
Proof.
  assert (H1 : id p1 <> id p2) by discriminate.
  assert (H2 : lists (J := text_json) healthy fresh []) by reflexivity.
  assert (H3 : writes healthy) by (intros k v; reflexivity).
  assert (H4 : reads healthy) by reflexivity.
  split.
  - repeat split; first [ assumption | reflexivity ].
  - exact (add_add_most_recent_first (L := text_json_laws) p1 p2 [] healthy healthy healthy
             fresh H1 H2 eq_refl eq_refl eq_refl H3 H4 H3 H4).
Defined.

(** C5. When the collection already holds an Item with the identifier of
    the argument, [saveProject] returns false, does not call [setItem]
    and leaves the storage area as it was; [getSavedProjects] returns
    the same collection afterwards, which holds exactly one Item with
    that identifier. *)
Theorem add_duplicate_is_noop {J : JSON}
    (a : ProjectIdea) (l : list value) (m : Medium) (w : World) :
  lists m w l -> collection l = true -> (forall i, count_id i l <= 1) ->
  0 < count_id (id a) l ->
  fst (saveProject a m w) = Normal false /\
  setItem_calls (snd (saveProject a m w)) = setItem_calls w /\
  localStorage (snd (saveProject a m w)) = localStorage w /\
  lists m (snd (saveProject a m w)) l /\
  count_id (id a) l = 1.
Proof.
  intros Hl Hc Hu Ha.
  assert (Hin : existsb (has_id (id a)) l = true).
  { destruct (existsb (has_id (id a)) l) eqn:E; [ reflexivity | ].
    apply count_id_existsb in E. lia. }
  rewrite (saveProject_present a l m w Hl Hc Hin). cbn [fst snd].
  destruct (getSavedProjects_frame m w) as [Hs Hcalls].
  repeat split; try assumption.
  - unfold lists. rewrite (getSavedProjects_storage m _ w Hs). exact Hl.
  - specialize (Hu (id a)). lia.
Qed.

Lemma add_duplicate_is_noop_witness :
  let w := snd (saveProject (J := text_json) p1 healthy fresh) in
  lists (J := text_json) healthy w [js_of_idea p1] /\
  fst (saveProject (J := text_json) p1 healthy w) = Normal false /\
  setItem_calls (snd (saveProject (J := text_json) p1 healthy w)) = setItem_calls w /\
  localStorage (snd (saveProject (J := text_json) p1 healthy w)) = localStorage w /\
  lists (J := text_json) healthy (snd (saveProject (J := text_json) p1 healthy w))
    [js_of_idea p1] /\
  count_id (id p1) [js_of_idea p1] = 1.
Proof.
  cbv zeta.
  assert (H : lists (J := text_json) healthy
                (snd (saveProject (J := text_json) p1 healthy fresh)) [js_of_idea p1])
    by (vm_compute; reflexivity).
  split; [ exact H | ].
  apply (add_duplicate_is_noop (J := text_json) p1 [js_of_idea p1] healthy _ H).
  - reflexivity.
  - intros i. rewrite count_id_cons. change (count_id i []) with 0.
    destruct (has_id i (js_of_idea p1)); lia.
  - vm_compute. lia.
Defined.

(** C6. [removeProject i] calls [setItem] once, with the text of the
    collection without the Items whose identifier is [i], also when no
    Item matched; once the write is accepted, [getSavedProjects] returns
    that filtered collection, the remaining Items in their former order.
    When no Item has the identifier [i] the filtered collection is the
    collection itself, so [getSavedProjects] returns what it did before. *)
Theorem remove_filters_and_writes {J : JSON} {L : JSONLaws J}
    (i : string) (l : list value) (m m' : Medium) (w : World) :
  lists m w l -> collection l = true ->
  setItem_calls (snd (removeProject i m w))
    = (STORAGE_KEY, JSON_stringify (VArr (without_id i l))) :: setItem_calls w /\
  sublist (without_id i l) l /\
  (forall v, In v (without_id i l) <-> In v l /\ item_id v <> Some i) /\
  (writes m -> reads m' -> lists m' (snd (removeProject i m w)) (without_id i l)) /\
  (count_id i l = 0 -> without_id i l = l) /\
  (count_id i l = 0 -> writes m -> reads m' -> lists m' (snd (removeProject i m w)) l).
Proof.
  intros Hl Hc.
  assert (Hlists : writes m -> reads m' ->
                   lists m' (snd (removeProject i m w)) (without_id i l)).
  { intros Hw Hr. apply (lists_after_remove i l m m' w Hl Hc (Hw _ _) Hr). }
  assert (Habsent : count_id i l = 0 -> without_id i l = l).
  { intros H. apply without_id_absent, count_id_existsb, H. }
  split; [ | split; [ apply without_id_sublist | ] ];
    [ | split; [ apply In_without_id | ] ];
    [ | split; [ exact Hlists | split; [ exact Habsent | ] ] ].
  - rewrite (removeProject_collection i l m w Hl Hc). cbv zeta.
    destruct (setItem_throws m STORAGE_KEY _); cbn [snd logged written setItem_calls];
      rewrite (proj2 (getSavedProjects_frame m w)); reflexivity.
  - intros H0 Hw Hr. rewrite <- (Habsent H0). exact (Hlists Hw Hr).
Qed.

Lemma remove_filters_and_writes_witness :
  let w := snd (saveProject (J := text_json) p2 healthy
                  (snd (saveProject (J := text_json) p1 healthy fresh))) in
  (lists (J := text_json) healthy w [js_of_idea p2; js_of_idea p1] /\
   writes healthy /\ reads healthy /\
   count_id "p3" [js_of_idea p2; js_of_idea p1] = 0) /\
  lists (J := text_json) healthy (snd (removeProject (J := text_json) "p1" healthy w))
    (without_id "p1" [js_of_idea p2; js_of_idea p1]) /\
  lists (J := text_json) healthy (snd (removeProject (J := text_json) "p3" healthy w))
    [js_of_idea p2; js_of_idea p1].
Proof.
  cbv zeta.
  assert (H : lists (J := text_json) healthy
                (snd (saveProject (J := text_json) p2 healthy
                        (snd (saveProject (J := text_json) p1 healthy fresh))))
                [js_of_idea p2; js_of_idea p1]) by (vm_compute; reflexivity).
  assert (Hw : writes healthy) by (intros k v; reflexivity).
  assert (Hr : reads healthy) by reflexivity.
  split; [ repeat split; first [ assumption | reflexivity ] | ].
  split.
  - apply (remove_filters_and_writes (L := text_json_laws) "p1" _ healthy healthy _ H eq_refl);
      assumption.
  - apply (remove_filters_and_writes (L := text_json_laws) "p3" _ healthy healthy _ H eq_refl);
      [ reflexivity | assumption | assumption ].
Defined.

(** C7. On a collection, [isProjectSaved i] returns true exactly when an
    Item of the collection has the identifier [i], and it neither
    changes the storage area nor calls [setItem].  It returns true right
    after a [saveProject] of an Item with that identifier that returned
    true, and false right after a [removeProject i] whose write was
    accepted. *)
Theorem isSaved_iff_present {J : JSON} {L : JSONLaws J}
    (i : string) (l : list value) (m m' : Medium) (w : World) :
  lists m w l -> collection l = true ->
  (exists b, fst (isProjectSaved i m w) = Normal b /\
             (b = true <-> exists v, In v l /\ item_id v = Some i)) /\
  localStorage (snd (isProjectSaved i m w)) = localStorage w /\
  setItem_calls (snd (isProjectSaved i m w)) = setItem_calls w /\
  (forall a, id a = i -> fst (saveProject a m w) = Normal true -> reads m' ->
             fst (isProjectSaved i m' (snd (saveProject a m w))) = Normal true) /\
  (writes m -> reads m' ->
   fst (isProjectSaved i m' (snd (removeProject i m w))) = Normal false).
Proof.
  intros Hl Hc. split; [ | split; [ | split; [ | split ] ] ].
  - rewrite (isProjectSaved_collection i l m w Hl Hc). cbn [fst].
    exists (existsb (has_id i) l). split; [ reflexivity | ].
    rewrite existsb_exists. unfold has_id. split.
    + intros (v & Hv & Hid). exists v. split; [ exact Hv | ].
      destruct (item_id v) as [ j | ]; [ | discriminate ].
      apply String.eqb_eq in Hid. congruence.
    + intros (v & Hv & Hid). exists v. split; [ exact Hv | ].
      rewrite Hid. apply String.eqb_refl.
  - rewrite (isProjectSaved_collection i l m w Hl Hc). apply getSavedProjects_frame.
  - rewrite (isProjectSaved_collection i l m w Hl Hc). apply getSavedProjects_frame.
  - intros a Ha Htrue Hr.
    destruct (saveProject_true_written a l m w Hl Hc Htrue) as [Hfresh Hset].
    destruct (lists_after_add a l m m' w Hl Hc Hfresh Hset Hr) as [_ Hl'].
    rewrite (isProjectSaved_collection i _ m' _ Hl').
    + cbn [fst existsb]. rewrite has_id_js_of_idea, Ha, String.eqb_refl. reflexivity.
    + apply collection_cons. split; [ apply is_item_js_of_idea | exact Hc ].
  - intros Hw Hr.
    pose proof (lists_after_remove i l m m' w Hl Hc (Hw _ _) Hr) as Hl'.
    rewrite (isProjectSaved_collection i _ m' _ Hl' (collection_without_id i l Hc)).
    cbn [fst]. rewrite without_id_gone. reflexivity.
Qed.

Lemma isSaved_iff_present_witness :
  (lists (J := text_json) healthy fresh [] /\ id p1 = "p1" /\
   fst (saveProject (J := text_json) p1 healthy fresh) = Normal true /\
   writes healthy /\ reads healthy) /\
  fst (isProjectSaved (J := text_json) "p1" healthy
         (snd (saveProject (J := text_json) p1 healthy fresh))) = Normal true /\
  fst (isProjectSaved (J := text_json) "p1" healthy
         (snd (removeProject (J := text_json) "p1" healthy fresh))) = Normal false.
Proof.
  assert (H : lists (J := text_json) healthy fresh []) by reflexivity.
  assert (Ht : fst (saveProject (J := text_json) p1 healthy fresh) = Normal true)
    by (vm_compute; reflexivity).
  assert (Hw : writes healthy) by (intros k v; reflexivity).
  assert (Hr : reads healthy) by reflexivity.
  split; [ repeat split; first [ assumption | reflexivity ] | ].
  pose proof (isSaved_iff_present (L := text_json_laws) "p1" [] healthy healthy fresh
                H eq_refl) as (_ & _ & _ & Hadd & Hremove).
  split; [ exact (Hadd p1 eq_refl Ht Hr) | exact (Hremove Hw Hr) ].
Defined.

(** C8. For every collection of Items, once its JSON text is written
    under the key of the store, [getSavedProjects] returns the
    collection itself: the same Items in the same order.  The text is
    the one [JSONText.stringify] writes and [JSONText.parse] reads. *)
Theorem serialized_collection_round_trip
    (l : list value) (m m' : Medium) (w : World) :
  collection l = true -> writes m -> reads m' ->
  JSONText.parse (JSONText.stringify (VArr l)) = Normal (VArr l) /\
  lists (J := text_json) m'
    (snd (localStorage_setItem STORAGE_KEY (JSONText.stringify (VArr l)) m w)) l.
Proof.
  intros Hc Hw Hr. split.
  - apply JSONTextFacts.parse_stringify_text, collection_well_formed, Hc.
  - apply (lists_stored (L := text_json_laws)); [ exact Hr | exact Hc | ].
    unfold localStorage_setItem. rewrite (Hw STORAGE_KEY). cbn [snd].
    unfold stored. cbn [localStorage]. apply lookup_insert_eq.
Qed.

Lemma serialized_collection_round_trip_witness :
  (collection [js_of_idea p2; js_of_idea p1] = true /\ writes healthy /\ reads healthy) /\
  JSONText.parse (JSONText.stringify (VArr [js_of_idea p2; js_of_idea p1]))
    = Normal (VArr [js_of_idea p2; js_of_idea p1]) /\
  lists (J := text_json) healthy
    (snd (localStorage_setItem STORAGE_KEY
            (JSONText.stringify (VArr [js_of_idea p2; js_of_idea p1])) healthy fresh))
    [js_of_idea p2; js_of_idea p1].
Proof.
  assert (Hw : writes healthy) by (intros k v; reflexivity).
  assert (Hr : reads healthy) by reflexivity.
  split; [ repeat split; first [ assumption | reflexivity ] | ].
  exact (serialized_collection_round_trip [js_of_idea p2; js_of_idea p1] healthy healthy
           fresh eq_refl Hw Hr).
Defined.

(** The same for a typed collection. *)
Corollary typed_collection_round_trip (c : list ProjectIdea) :
  JSONText.parse (JSONText.stringify (js_of_ideas c)) = Normal (js_of_ideas c).
Proof.
  apply JSONTextFacts.parse_stringify_text, collection_well_formed, collection_js_of_ideas.
Qed.

(** C9. For an Item whose identifier the collection does not hold,
    [saveProject] calls [setItem] with the text of the collection with
    the Item in front and returns true exactly when the medium accepts
    the write.  When the write is refused it returns false and the
    storage area is as it was, so [getSavedProjects] returns what it
    returned before; when it is accepted the new text is what is
    stored, and [getSavedProjects] returns the new collection. *)
Theorem add_reports_write_outcome {J : JSON} {L : JSONLaws J}
    (a : ProjectIdea) (l : list value) (m : Medium) (w : World) :
  lists m w l -> collection l = true -> count_id (id a) l = 0 ->
  let s := JSON_stringify (VArr (js_of_idea a :: l)) in
  let w' := snd (saveProject a m w) in
  fst (saveProject a m w) = Normal (negb (setItem_throws m STORAGE_KEY s)) /\
  setItem_calls w' = (STORAGE_KEY, s) :: setItem_calls w /\
  (setItem_throws m STORAGE_KEY s = true ->
   localStorage w' = localStorage w /\
   forall m', fst (getSavedProjects m' w') = fst (getSavedProjects m' w)) /\
  (setItem_throws m STORAGE_KEY s = false ->
   stored w' = Some s /\
   forall m', reads m' -> lists m' w' (js_of_idea a :: l)).
Proof.
  intros Hl Hc Ha s w'. apply count_id_existsb in Ha.
  destruct (getSavedProjects_frame m w) as [Hs Hcalls].
  pose proof (saveProject_absent a l m w Hl Hc Ha) as Hsave. cbv zeta in Hsave.
  fold s in Hsave. subst w'. rewrite Hsave.
  destruct (setItem_throws m STORAGE_KEY s) eqn:Hset; cbn [fst snd negb].
  - split; [ reflexivity | ]. split; [ cbn; rewrite Hcalls; reflexivity | ].
    split; [ | discriminate ]. intros _.
    split; [ exact Hs | intros m'; apply getSavedProjects_storage; exact Hs ].
  - split; [ reflexivity | ]. split; [ cbn; rewrite Hcalls; reflexivity | ].
    split; [ discriminate | ]. intros _.
    split; [ apply stored_written | ]. intros m' Hr.
    apply lists_stored; [ exact Hr | | apply stored_written ].
    apply collection_cons. split; [ apply is_item_js_of_idea | exact Hc ].
Qed.

Lemma add_reports_write_outcome_witness :
  (lists (J := text_json) full fresh [] /\ collection [] = true /\
   count_id (id p1) [] = 0) /\
  fst (saveProject (J := text_json) p1 full fresh) = Normal false /\
  fst (saveProject (J := text_json) p1 healthy fresh) = Normal true.
Proof.
  assert (H : lists (J := text_json) full fresh []) by reflexivity.
  assert (H' : lists (J := text_json) healthy fresh []) by reflexivity.
  split; [ repeat split; first [ assumption | reflexivity ] | ].
  split.
  - exact (proj1 (add_reports_write_outcome (L := text_json_laws) p1 [] full fresh
                    H eq_refl eq_refl)).
  - exact (proj1 (add_reports_write_outcome (L := text_json_laws) p1 [] healthy fresh
                    H' eq_refl eq_refl)).
Defined.

(** C10. After a [saveProject A] that returned true, [getSavedProjects]
    returns A followed by the Items it returned before: each of them
    unchanged, none dropped, in the same order. *)
Theorem add_keeps_existing_items {J : JSON} {L : JSONLaws J}
    (A : ProjectIdea) (l : list value) (m m' : Medium) (w : World) :
  lists m w l -> collection l = true -> count_id (id A) l = 0 ->
  fst (saveProject A m w) = Normal true -> reads m' ->
  exists l',
    lists m' (snd (saveProject A m w)) l' /\
    l' = js_of_idea A :: l /\
    (forall n v, nth_error l n = Some v -> nth_error l' (S n) = Some v) /\
    length l' = S (length l).
Proof.
  intros Hl Hc _ Htrue Hr.
  destruct (saveProject_true_written A l m w Hl Hc Htrue) as [Hfresh Hset].
  destruct (lists_after_add A l m m' w Hl Hc Hfresh Hset Hr) as [_ Hl'].
  exists (js_of_idea A :: l). repeat split; [ exact Hl' | ].
  intros n v Hv. exact Hv.
Qed.

Lemma add_keeps_existing_items_witness :
  let w := snd (saveProject (J := text_json) p1 healthy fresh) in
  (lists (J := text_json) healthy w [js_of_idea p1] /\
   collection [js_of_idea p1] = true /\ count_id (id p2) [js_of_idea p1] = 0 /\
   fst (saveProject (J := text_json) p2 healthy w) = Normal true /\ reads healthy) /\
  exists l',
    lists (J := text_json) healthy (snd (saveProject (J := text_json) p2 healthy w)) l' /\
    l' = js_of_idea p2 :: [js_of_idea p1] /\
    (forall n v, nth_error [js_of_idea p1] n = Some v -> nth_error l' (S n) = Some v) /\
    length l' = S (length [js_of_idea p1]).
Proof.
  cbv zeta.
  assert (H : lists (J := text_json) healthy
                (snd (saveProject (J := text_json) p1 healthy fresh)) [js_of_idea p1])
    by (vm_compute; reflexivity).
  assert (Ht : fst (saveProject (J := text_json) p2 healthy
                      (snd (saveProject (J := text_json) p1 healthy fresh))) = Normal true)
    by (vm_compute; reflexivity).
  assert (Hr : reads healthy) by reflexivity.
  split; [ repeat split; first [ assumption | reflexivity ] | ].
  exact (add_keeps_existing_items (L := text_json_laws) p2 [js_of_idea p1] healthy healthy _
           H eq_refl eq_refl Ht Hr).
Defined.

(** ** The scenario of the specification, run on the textual codec

    Start empty; add p1; add p2; remove p1. *)

Example scenario :
  let list w := fst (getSavedProjects (J := text_json) healthy w) in
  let isSaved i w := fst (isProjectSaved (J := text_json) i healthy w) in
  let w1 := snd (saveProject (J := text_json) p1 healthy fresh) in
  let w2 := snd (saveProject (J := text_json) p2 healthy w1) in
  let w3 := snd (removeProject (J := text_json) "p1" healthy w2) in
  list fresh = Normal (VArr []) /\
  list w1 = Normal (VArr [js_of_idea p1]) /\
  list w2 = Normal (VArr [js_of_idea p2; js_of_idea p1]) /\
  list w3 = Normal (VArr [js_of_idea p2]) /\
  isSaved "p1" w3 = Normal false /\
  isSaved "p2" w3 = Normal true /\
  stored w3 = Some (JSONText.stringify (VArr [js_of_idea p2])).
Proof. vm_compute. repeat split. Qed.

(** The same additions on a medium that refuses every write leave
    nothing behind, and both report false. *)
Example scenario_on_full_medium :
  fst (saveProject (J := text_json) p1 full fresh) = Normal false /\
  stored (snd (saveProject (J := text_json) p1 full fresh)) = None /\
  fst (getSavedProjects (J := text_json) healthy
         (snd (saveProject (J := text_json) p1 full fresh))) = Normal (VArr []).
Proof. vm_compute. repeat split. Qed.

(** * Further properties of the store and of its callers *)

(** ** The worlds an operation can end in *)

Section Outcomes.
Context {J : JSON}.

(** [saveProject] ends in one of four ways: the identifier was found;
    something threw before the write; the write was refused; the write
    was accepted. *)
Lemma saveProject_outcome (a : ProjectIdea) (m : Medium) (w : World) :
  let w1 := snd (getSavedProjects m w) in
  (exists l, fst (getSavedProjects m w) = Normal (VArr l) /\
             Array_some (id_is (id a)) l = Normal true /\
             saveProject a m w = (Normal false, w1)) \/
  (exists e, saveProject a m w = (Normal false, logged "Failed to save project" e w1)) \/
  (exists l, fst (getSavedProjects m w) = Normal (VArr l) /\
             saveProject a m w =
             (Normal false,
              logged "Failed to save project" DOMException
                (written false (JSON_stringify (VArr (js_of_idea a :: l))) w1))) \/
  (exists l, fst (getSavedProjects m w) = Normal (VArr l) /\
             saveProject a m w =
             (Normal true, written true (JSON_stringify (VArr (js_of_idea a :: l))) w1)).
Proof.
  cbv zeta. rewrite saveProject_cases. cbv zeta.
  destruct (fst (getSavedProjects m w)) as [ saved | e ]; [ | right; left; eauto ].
  destruct saved as [ | b | n | s | l | props ]; cbn [some_of];
    try (right; left; eauto; fail).
  destruct (Array_some (id_is (id a)) l) as [ [ | ] | e ] eqn:E.
  - left. exists l. auto.
  - cbn [cons_spread iterate].
    destruct (setItem_throws m STORAGE_KEY _); right; right; [ left | right ]; eauto.
  - right. left. eauto.
Qed.

(** [removeProject] ends in one of three ways. *)
Lemma removeProject_outcome (i : string) (m : Medium) (w : World) :
  let w1 := snd (getSavedProjects m w) in
  (exists e, snd (removeProject i m w) = logged "Failed to remove project" e w1) \/
  (exists l l', fst (getSavedProjects m w) = Normal (VArr l) /\
                Array_filter (id_is_not i) l = Normal l' /\
                snd (removeProject i m w) =
                logged "Failed to remove project" DOMException
                  (written false (JSON_stringify (VArr l')) w1)) \/
  (exists l l', fst (getSavedProjects m w) = Normal (VArr l) /\
                Array_filter (id_is_not i) l = Normal l' /\
                snd (removeProject i m w) = written true (JSON_stringify (VArr l')) w1).
Proof.
  cbv zeta. rewrite removeProject_cases. cbv zeta.
  destruct (fst (getSavedProjects m w)) as [ saved | e ]; [ | left; eauto ].
  destruct saved as [ | b | n | s | l | props ]; cbn [filter_of];
    try (left; eauto; fail).
  destruct (Array_filter (id_is_not i) l) as [ l' | e ] eqn:E; [ | left; eauto ].
  destruct (setItem_throws m STORAGE_KEY _); right; [ left | right ]; eauto.
Qed.

Lemma lists_storage (m : Medium) (w w' : World) (l : list value) :
  localStorage w' = localStorage w -> lists m w l -> lists m w' l.
Proof. unfold lists. intros H <-. apply getSavedProjects_storage, H. Qed.

(** The handlers of App.tsx, call by call. *)
Lemma toggleSave_cases (a : ProjectIdea) (m : Medium) (w : World) :
  toggleSave a m w =
  match isProjectSaved (id a) m w with
  | (Throw e, w1) => (Throw e, w1)
  | (Normal true, w1) => getSavedProjects m (snd (removeProject (id a) m w1))
  | (Normal false, w1) => getSavedProjects m (snd (saveProject a m w1))
  end.
Proof.
  unfold toggleSave. unfold bind at 1.
  destruct (isProjectSaved (id a) m w) as [ [ [ | ] | e ] w1 ]; [ | | reflexivity ].
  - unfold bind. pose proof (removeProject_total (id a) m w1) as H.
    destruct (removeProject (id a) m w1) as [ r w2 ]. cbn [fst] in H. rewrite H. reflexivity.
  - unfold bind at 1 2. destruct (saveProject_total a m w1) as [b H].
    destruct (saveProject a m w1) as [ r w2 ]. cbn [fst] in H. rewrite H. reflexivity.
Qed.

Lemma handleRemove_cases (a : ProjectIdea) (m : Medium) (w : World) :
  handleRemove a m w = getSavedProjects m (snd (removeProject (id a) m w)).
Proof.
  unfold handleRemove, bind. pose proof (removeProject_total (id a) m w) as H.
  destruct (removeProject (id a) m w) as [ r w1 ]. cbn [fst] in H. rewrite H. reflexivity.
Qed.

End Outcomes.

(** ** What the operations leave alone *)

Lemma other_keys_kept_storage (w w' : World) :
  localStorage w' = localStorage w -> other_keys_kept w w'.
Proof. intros H k _. rewrite H. reflexivity. Qed.

Lemma other_keys_kept_trans (w1 w2 w3 : World) :
  other_keys_kept w1 w2 -> other_keys_kept w2 w3 -> other_keys_kept w1 w3.
Proof. intros H12 H23 k Hk. rewrite (H23 k Hk). apply H12, Hk. Qed.

Lemma other_keys_kept_written (accepted : bool) (v : string) (w : World) :
  other_keys_kept w (written accepted v w).
Proof.
  intros k Hk. unfold written. cbn [localStorage].
  destruct accepted; [ apply lookup_insert_ne; congruence | reflexivity ].
Qed.

Section Frame.
Context {J : JSON}.

Lemma getSavedProjects_other_keys (m : Medium) (w : World) :
  other_keys_kept w (snd (getSavedProjects m w)).
Proof. apply other_keys_kept_storage, getSavedProjects_frame. Qed.

Lemma saveProject_other_keys (a : ProjectIdea) (m : Medium) (w : World) :
  other_keys_kept w (snd (saveProject a m w)).
Proof.
  apply other_keys_kept_trans with (snd (getSavedProjects m w));
    [ apply getSavedProjects_other_keys | ].
  destruct (saveProject_outcome a m w)
    as [ (l & _ & _ & H) | [ (e & H) | [ (l & _ & H) | (l & _ & H) ] ] ];
    rewrite H; cbn [snd].
  - apply other_keys_kept_storage. reflexivity.
  - apply other_keys_kept_storage. reflexivity.
  - apply (other_keys_kept_written false).
  - apply (other_keys_kept_written true).
Qed.

Lemma removeProject_other_keys (i : string) (m : Medium) (w : World) :
  other_keys_kept w (snd (removeProject i m w)).
Proof.
  apply other_keys_kept_trans with (snd (getSavedProjects m w));
    [ apply getSavedProjects_other_keys | ].
  destruct (removeProject_outcome i m w)
    as [ (e & H) | [ (l & l' & _ & _ & H) | (l & l' & _ & _ & H) ] ]; rewrite H.
  - apply other_keys_kept_storage. reflexivity.
  - apply (other_keys_kept_written false).
  - apply (other_keys_kept_written true).
Qed.

Lemma isProjectSaved_world (i : string) (m : Medium) (w : World) :
  snd (isProjectSaved i m w) = snd (getSavedProjects m w).
Proof.
  rewrite isProjectSaved_cases. destruct (fst (getSavedProjects m w)); reflexivity.
Qed.

(** X1. No operation of the store and no handler of the application
    touches a key of the storage area other than the key of the store:
    whatever is stored and whatever the medium does, every other key
    holds afterwards what it held before. *)
Theorem other_keys_untouched
    (a : ProjectIdea) (i k : string) (m : Medium) (w : World) :
  k <> STORAGE_KEY ->
  localStorage (snd (getSavedProjects m w)) !! k = localStorage w !! k /\
  localStorage (snd (saveProject a m w)) !! k = localStorage w !! k /\
  localStorage (snd (removeProject i m w)) !! k = localStorage w !! k /\
  localStorage (snd (isProjectSaved i m w)) !! k = localStorage w !! k /\
  localStorage (snd (toggleSave a m w)) !! k = localStorage w !! k /\
  localStorage (snd (handleRemove a m w)) !! k = localStorage w !! k.
Proof.
  intros Hk.
  split; [ apply getSavedProjects_other_keys, Hk | ].
  split; [ apply saveProject_other_keys, Hk | ].
  split; [ apply removeProject_other_keys, Hk | ].
  split; [ rewrite isProjectSaved_world; apply getSavedProjects_other_keys, Hk | ].
  split.
  - rewrite toggleSave_cases.
    pose proof (isProjectSaved_world (id a) m w) as Hw.
    destruct (isProjectSaved (id a) m w) as [ [ [ | ] | e ] w1 ]; cbn [snd] in Hw |- *;
      subst w1.
    + rewrite (getSavedProjects_other_keys m _ k Hk),
        (removeProject_other_keys _ m _ k Hk).
      apply getSavedProjects_other_keys, Hk.
    + rewrite (getSavedProjects_other_keys m _ k Hk),
        (saveProject_other_keys _ m _ k Hk).
      apply getSavedProjects_other_keys, Hk.
    + apply getSavedProjects_other_keys, Hk.
  - rewrite handleRemove_cases, (getSavedProjects_other_keys m _ k Hk).
    apply removeProject_other_keys, Hk.
Qed.

End Frame.

Lemma other_keys_untouched_witness :
  let w := mkWorld {[ "theme" := "dark"; STORAGE_KEY := "[42, null]" ]} [] [] in
  "theme" <> STORAGE_KEY /\
  localStorage (snd (saveProject (J := text_json) p1 healthy w)) !! "theme" = Some "dark" /\
  localStorage (snd (toggleSave (J := text_json) p1 healthy w)) !! "theme" = Some "dark".
Proof.
  cbv zeta. assert (H : "theme" <> STORAGE_KEY) by discriminate.
  split; [ exact H | ].
  pose proof (other_keys_untouched (J := text_json) p1 "p1" "theme" healthy
                (mkWorld {[ "theme" := "dark"; STORAGE_KEY := "[42, null]" ]} [] []) H)
    as (_ & Hsave & _ & _ & Htoggle & _).
  split; [ rewrite Hsave | rewrite Htoggle ]; reflexivity.
Defined.

(** ** What the operations write, and what their result tells *)

Section Writes.
Context {J : JSON}.

(** X2. [saveProject] and [removeProject] call [setItem] at most once,
    always on the key of the store and always with the text of an
    array: the Item in front of what [getSavedProjects] returned, or
    what [filter] kept of it.  This holds for every stored value, every
    medium and every argument. *)
Theorem at_most_one_write_of_an_array
    (a : ProjectIdea) (i : string) (m : Medium) (w : World) :
  (setItem_calls (snd (saveProject a m w)) = setItem_calls w \/
   exists l, fst (getSavedProjects m w) = Normal (VArr l) /\
             setItem_calls (snd (saveProject a m w))
             = (STORAGE_KEY, JSON_stringify (VArr (js_of_idea a :: l))) :: setItem_calls w) /\
  (setItem_calls (snd (removeProject i m w)) = setItem_calls w \/
   exists l l', fst (getSavedProjects m w) = Normal (VArr l) /\
                Array_filter (id_is_not i) l = Normal l' /\
                setItem_calls (snd (removeProject i m w))
                = (STORAGE_KEY, JSON_stringify (VArr l')) :: setItem_calls w).
Proof.
  pose proof (proj2 (getSavedProjects_frame m w)) as Hcalls. split.
  - destruct (saveProject_outcome a m w)
      as [ (l & _ & _ & H) | [ (e & H) | [ (l & Hl & H) | (l & Hl & H) ] ] ];
      rewrite H; cbn [snd logged written setItem_calls]; rewrite Hcalls; eauto.
  - destruct (removeProject_outcome i m w)
      as [ (e & H) | [ (l & l' & Hl & Hf & H) | (l & l' & Hl & Hf & H) ] ];
      rewrite H; cbn [snd logged written setItem_calls]; rewrite Hcalls; eauto 6.
Qed.

(** X3. The result of [saveProject] tells what happened to the storage
    area, on every world and medium: after [true] the key of the store
    holds the text of the array made of the Item and of what
    [getSavedProjects] returned; after [false] the storage area is what
    it was, and either the identifier was found in what
    [getSavedProjects] returned or a failure was sent to the console. *)
Theorem saveProject_result_meaning (a : ProjectIdea) (m : Medium) (w : World) :
  (fst (saveProject a m w) = Normal true ->
   exists l, fst (getSavedProjects m w) = Normal (VArr l) /\
             stored (snd (saveProject a m w))
             = Some (JSON_stringify (VArr (js_of_idea a :: l)))) /\
  (fst (saveProject a m w) = Normal false ->
   localStorage (snd (saveProject a m w)) = localStorage w /\
   ((exists l, fst (getSavedProjects m w) = Normal (VArr l) /\
               Array_some (id_is (id a)) l = Normal true) \/
    exists e rest,
      console (snd (saveProject a m w)) = ("Failed to save project", e) :: rest)).
Proof.
  pose proof (proj1 (getSavedProjects_frame m w)) as Hs.
  destruct (saveProject_outcome a m w)
    as [ (l & Hl & Hsome & H) | [ (e & H) | [ (l & Hl & H) | (l & Hl & H) ] ] ];
    rewrite H; cbn [fst snd]; (split; [ intros Ht | intros Hf ]); try discriminate.
  - split; [ exact Hs | left; eauto ].
  - split; [ exact Hs | right; cbn; eauto ].
  - split; [ exact Hs | right; cbn; eauto ].
  - exists l. split; [ exact Hl | apply stored_written ].
Qed.

End Writes.

Lemma saveProject_result_meaning_witness :
  fst (saveProject (J := text_json) p1 healthy foreign) = Normal false /\
  localStorage (snd (saveProject (J := text_json) p1 healthy foreign))
  = localStorage foreign.
Proof.
  assert (H : fst (saveProject (J := text_json) p1 healthy foreign) = Normal false)
    by reflexivity.
  split; [ exact H | ].
  exact (proj1 (proj2 (saveProject_result_meaning (J := text_json) p1 healthy foreign) H)).
Defined.

(** ** Stored values the store cannot repair, and values it discards *)

Lemma Array_some_null (i : string) (l : list value) :
  existsb is_null l = true -> Array_some (id_is i) l <> Normal false.
Proof.
  induction l as [ | x l IH ]; [ discriminate | ].
  cbn [existsb Array_some]. intros H.
  destruct x as [ | b | n | s | l' | props ]; cbn [is_null orb] in H;
    try discriminate;
    (destruct (id_is i _) as [ [ | ] | e ]; [ discriminate | apply IH, H | discriminate ]).
Qed.

Lemma Array_filter_null (i : string) (l : list value) :
  existsb is_null l = true -> Array_filter (id_is_not i) l = Throw TypeError.
Proof.
  induction l as [ | x l IH ]; [ discriminate | ].
  cbn [existsb Array_filter]. intros H.
  destruct x as [ | b | n | s | l' | props ]; cbn [is_null orb] in H;
    try reflexivity;
    (rewrite id_is_not_has_id by discriminate; rewrite (IH H); reflexivity).
Qed.

Lemma poisoned_some_of (i : string) (v : value) :
  poisoned v = true -> some_of v (id_is i) <> Normal false.
Proof.
  destruct v as [ | b | n | s | l | props ]; cbn [poisoned some_of];
    try discriminate. apply Array_some_null.
Qed.

Lemma poisoned_filter_of (i : string) (v : value) :
  poisoned v = true -> filter_of v (id_is_not i) = Throw TypeError.
Proof.
  destruct v as [ | b | n | s | l | props ]; cbn [poisoned filter_of];
    try reflexivity. intros H. rewrite (Array_filter_null i l H). reflexivity.
Qed.

Section Stuck.
Context {J : JSON}.

Lemma getSavedProjects_parsed (m : Medium) (w : World) (s : string) (v : value) :
  reads m -> stored w = Some s -> s <> "" -> JSON_parse s = Normal v ->
  getSavedProjects m w = (Normal v, w).
Proof.
  intros Hm Hs Hne Hv. rewrite getSavedProjects_cases, Hm, Hs, Hv.
  unfold truthy. apply String.eqb_neq in Hne. rewrite Hne. reflexivity.
Qed.

Lemma perform_poisoned (o : operation) (m : Medium) (w : World) (v : value) :
  fst (getSavedProjects m w) = Normal v -> poisoned v = true ->
  localStorage (perform o m w) = localStorage w /\
  setItem_calls (perform o m w) = setItem_calls w.
Proof.
  intros Hv Hp. destruct (getSavedProjects_frame m w) as [Hs Hc].
  destruct o as [ a | i ]; cbn [perform].
  - rewrite saveProject_cases. cbv zeta. rewrite Hv.
    pose proof (poisoned_some_of (id a) v Hp) as Hsome.
    destruct (some_of v (id_is (id a))) as [ [ | ] | e ];
      [ | congruence | ]; cbn [snd logged localStorage setItem_calls]; auto.
  - rewrite removeProject_cases. cbv zeta. rewrite Hv, (poisoned_filter_of i v Hp).
    cbn [snd logged localStorage setItem_calls]. auto.
Qed.

(** X4. A stored text that parses to anything but an array, or to an
    array that holds a null, stays where it is: through any run of
    [saveProject] and [removeProject] calls on media that allow the
    read, the storage area does not change and [setItem] is never
    called, and every later [saveProject] returns false. *)
Theorem poisoned_store_is_stuck
    (s : string) (v : value) (steps : list (operation * Medium)) (w : World) :
  stored w = Some s -> s <> "" -> JSON_parse s = Normal v -> poisoned v = true ->
  Forall (fun step => reads (snd step)) steps ->
  localStorage (perform_all steps w) = localStorage w /\
  setItem_calls (perform_all steps w) = setItem_calls w /\
  forall a m, reads m -> fst (saveProject a m (perform_all steps w)) = Normal false.
Proof.
  intros Hs Hne Hv Hp Hsteps.
  assert (Hrun : localStorage (perform_all steps w) = localStorage w /\
                 setItem_calls (perform_all steps w) = setItem_calls w).
  { revert w Hs. unfold perform_all.
    induction Hsteps as [ | [o m] steps Hm _ IH ]; intros w Hs; [ split; reflexivity | ].
    cbn [fold_left fst snd] in *.
    pose proof (getSavedProjects_parsed m w s v Hm Hs Hne Hv) as Hget.
    destruct (perform_poisoned o m w v) as [Hl Hc];
      [ rewrite Hget; reflexivity | exact Hp | ].
    destruct (IH (perform o m w)) as [Hl' Hc'].
    - unfold stored. rewrite Hl. exact Hs.
    - split; congruence. }
  destruct Hrun as [Hl Hc]. split; [ exact Hl | split; [ exact Hc | ] ].
  intros a m Hm.
  assert (Hs' : stored (perform_all steps w) = Some s) by (unfold stored; rewrite Hl; exact Hs).
  rewrite saveProject_cases. cbv zeta.
  rewrite (getSavedProjects_parsed m _ s v Hm Hs' Hne Hv). cbn [fst snd].
  pose proof (poisoned_some_of (id a) v Hp) as Hsome.
  destruct (some_of v (id_is (id a))) as [ [ | ] | e ]; [ | congruence | ]; reflexivity.
Qed.

End Stuck.

Lemma poisoned_store_is_stuck_witness :
  let steps := [ (Add p1, healthy); (Remove "p1", healthy); (Add p2, healthy) ] in
  (stored foreign_array = Some "[42, null]" /\
   JSON_parse (JSON := text_json) "[42, null]" = Normal (VArr [VNum 42; VNull]) /\
   poisoned (VArr [VNum 42; VNull]) = true) /\
  localStorage (perform_all (J := text_json) steps foreign_array)
  = localStorage foreign_array /\
  setItem_calls (perform_all (J := text_json) steps foreign_array)
  = setItem_calls foreign_array /\
  forall a m, reads m ->
    fst (saveProject (J := text_json) a m (perform_all (J := text_json) steps foreign_array))
    = Normal false.
Proof.
  cbv zeta. split; [ repeat split | ].
  apply (poisoned_store_is_stuck (J := text_json) "[42, null]" (VArr [VNum 42; VNull])).
  - reflexivity.
  - discriminate.
  - reflexivity.
  - reflexivity.
  - repeat constructor.
Defined.

Section Discard.
Context {J : JSON} {L : JSONLaws J}.

Lemma unreadable_lists_nothing (m : Medium) (w : World) :
  unreadable m w -> lists m w [].
Proof.
  unfold lists. rewrite getSavedProjects_cases.
  intros [ H | [ H | (s & e & H & He) ] ].
  - rewrite H. reflexivity.
  - destruct (getItem_throws m); [ reflexivity | ]. rewrite H. reflexivity.
  - destruct (getItem_throws m); [ reflexivity | ]. rewrite H.
    destruct (truthy s); [ rewrite He | ]; reflexivity.
Qed.

(** X5. What the store cannot read or parse it discards.  When the read
    is refused, or the stored text is empty or not JSON, and the medium
    accepts the write, [saveProject] returns true and leaves the text of
    the one-Item collection under the key, and [removeProject] leaves
    the text of the empty array: whatever was stored before is gone. *)
Theorem unreadable_content_is_overwritten
    (a : ProjectIdea) (i : string) (m m' : Medium) (w : World) :
  unreadable m w -> writes m -> reads m' ->
  (fst (saveProject a m w) = Normal true /\
   stored (snd (saveProject a m w)) = Some (JSON_stringify (VArr [js_of_idea a])) /\
   lists m' (snd (saveProject a m w)) [js_of_idea a]) /\
  (stored (snd (removeProject i m w)) = Some (JSON_stringify (VArr [])) /\
   lists m' (snd (removeProject i m w)) []).
Proof.
  intros Hu Hw Hr. pose proof (unreadable_lists_nothing m w Hu) as Hl. split.
  - destruct (lists_after_add a [] m m' w Hl eq_refl eq_refl (Hw _ _) Hr) as [Ht Hl'].
    split; [ exact Ht | split; [ | exact Hl' ] ].
    rewrite (saveProject_absent a [] m w Hl eq_refl eq_refl). cbv zeta.
    rewrite (Hw STORAGE_KEY). apply stored_written.
  - split; [ | exact (lists_after_remove i [] m m' w Hl eq_refl (Hw _ _) Hr) ].
    rewrite (removeProject_collection i [] m w Hl eq_refl). cbv zeta.
    rewrite (Hw STORAGE_KEY). apply stored_written.
Qed.

End Discard.

Lemma unreadable_content_is_overwritten_witness :
  let w := mkWorld {[ STORAGE_KEY := "[{id: p1}" ]} [] [] in
  (unreadable (J := text_json) healthy w /\ writes healthy /\ reads healthy) /\
  fst (saveProject (J := text_json) p2 healthy w) = Normal true /\
  lists (J := text_json) healthy (snd (saveProject (J := text_json) p2 healthy w))
    [js_of_idea p2].
Proof.
  cbv zeta.
  assert (Hu : unreadable (J := text_json) healthy
                 (mkWorld {[ STORAGE_KEY := "[{id: p1}" ]} [] [])).
  { right. right. exists "[{id: p1}", SyntaxError. split; reflexivity. }
  assert (Hw : writes healthy) by (intros k v; reflexivity).
  assert (Hr : reads healthy) by reflexivity.
  split; [ repeat split; assumption | ].
  destruct (unreadable_content_is_overwritten (L := text_json_laws) p2 "p1" healthy healthy
              _ Hu Hw Hr) as [ (Ht & _ & Hl) _ ].
  split; assumption.
Defined.

(** ** How the operations compose *)

Lemma without_id_idempotent (i : string) (l : list value) :
  without_id i (without_id i l) = without_id i l.
Proof. apply without_id_absent, without_id_gone. Qed.

Lemma without_id_cons_same (a : ProjectIdea) (l : list value) :
  without_id (id a) (js_of_idea a :: l) = without_id (id a) l.
Proof.
  unfold without_id. cbn [List.filter]. rewrite has_id_js_of_idea, String.eqb_refl.
  reflexivity.
Qed.

Lemma without_id_cons_other (j : string) (a : ProjectIdea) (l : list value) :
  id a <> j -> without_id j (js_of_idea a :: l) = js_of_idea a :: without_id j l.
Proof.
  intros H. unfold without_id. cbn [List.filter]. rewrite has_id_js_of_idea.
  apply String.eqb_neq in H. rewrite H. reflexivity.
Qed.

Lemma existsb_without_id (i j : string) (l : list value) :
  existsb (has_id i) l = false -> existsb (has_id i) (without_id j l) = false.
Proof.
  rewrite !count_id_existsb. pose proof (count_id_without_id j i l). lia.
Qed.

Lemma collection_add (a : ProjectIdea) (l : list value) :
  collection l = true -> collection (js_of_idea a :: l) = true.
Proof. intros H. apply collection_cons. split; [ apply is_item_js_of_idea | exact H ]. Qed.

Section Composition.
Context {J : JSON} {L : JSONLaws J}.

(** X6. Removing twice is removing once: on a working medium a second
    [removeProject] of the same identifier writes the very text the
    first one wrote, and [getSavedProjects] returns the same
    collection. *)
Theorem remove_is_idempotent (i : string) (l : list value) (m : Medium) (w : World) :
  lists m w l -> collection l = true -> reads m -> writes m ->
  let w1 := snd (removeProject i m w) in
  let w2 := snd (removeProject i m w1) in
  stored w2 = stored w1 /\
  lists m w1 (without_id i l) /\ lists m w2 (without_id i l).
Proof.
  intros Hl Hc Hr Hw w1 w2.
  pose proof (lists_after_remove i l m m w Hl Hc (Hw _ _) Hr) as Hl1. fold w1 in Hl1.
  pose proof (collection_without_id i l Hc) as Hc1.
  pose proof (lists_after_remove i _ m m w1 Hl1 Hc1 (Hw _ _) Hr) as Hl2. fold w2 in Hl2.
  rewrite without_id_idempotent in Hl2. split; [ | split; assumption ].
  subst w2. rewrite (removeProject_collection i _ m w1 Hl1 Hc1). cbv zeta.
  rewrite (Hw STORAGE_KEY). cbn [snd]. rewrite without_id_idempotent, stored_written.
  subst w1. rewrite (removeProject_collection i l m w Hl Hc). cbv zeta.
  rewrite (Hw STORAGE_KEY). cbn [snd]. rewrite stored_written. reflexivity.
Qed.

(** X7. [removeProject] undoes [saveProject]: from a collection that
    does not hold the identifier of the Item, saving it and then
    removing its identifier, on a working medium, gives back the
    collection, as [getSavedProjects] returns it and as it is
    persisted. *)
Theorem remove_undoes_add (a : ProjectIdea) (l : list value) (m : Medium) (w : World) :
  lists m w l -> collection l = true -> count_id (id a) l = 0 ->
  reads m -> writes m ->
  let w2 := snd (removeProject (id a) m (snd (saveProject a m w))) in
  lists m w2 l /\ stored w2 = Some (JSON_stringify (VArr l)).
Proof.
  intros Hl Hc Ha Hr Hw w2. apply count_id_existsb in Ha.
  destruct (lists_after_add a l m m w Hl Hc Ha (Hw _ _) Hr) as [_ Hl1].
  pose proof (collection_add a l Hc) as Hc1.
  pose proof (lists_after_remove (id a) _ m m _ Hl1 Hc1 (Hw _ _) Hr) as Hl2.
  fold w2 in Hl2. rewrite without_id_cons_same, (without_id_absent _ _ Ha) in Hl2.
  split; [ exact Hl2 | ].
  subst w2. rewrite (removeProject_collection (id a) _ m _ Hl1 Hc1). cbv zeta.
  rewrite (Hw STORAGE_KEY), without_id_cons_same, (without_id_absent _ _ Ha).
  apply stored_written.
Qed.

(** X8. Saving an Item and removing another identifier commute: from a
    collection that does not hold the identifier of the Item, in either
    order and on a working medium, [getSavedProjects] returns the Item
    in front of the collection without the other identifier. *)
Theorem add_and_remove_commute
    (a : ProjectIdea) (j : string) (l : list value) (m : Medium) (w : World) :
  id a <> j ->
  lists m w l -> collection l = true -> count_id (id a) l = 0 ->
  reads m -> writes m ->
  lists m (snd (removeProject j m (snd (saveProject a m w))))
    (js_of_idea a :: without_id j l) /\
  lists m (snd (saveProject a m (snd (removeProject j m w))))
    (js_of_idea a :: without_id j l).
Proof.
  intros Hne Hl Hc Ha Hr Hw. apply count_id_existsb in Ha. split.
  - destruct (lists_after_add a l m m w Hl Hc Ha (Hw _ _) Hr) as [_ Hl1].
    pose proof (lists_after_remove j _ m m _ Hl1 (collection_add a l Hc) (Hw _ _) Hr) as H.
    rewrite (without_id_cons_other j a l Hne) in H. exact H.
  - pose proof (lists_after_remove j l m m w Hl Hc (Hw _ _) Hr) as Hl1.
    apply (lists_after_add a _ m m _ Hl1 (collection_without_id j l Hc)
             (existsb_without_id _ j l Ha) (Hw _ _) Hr).
Qed.

End Composition.

Lemma remove_is_idempotent_witness :
  let w := snd (saveProject (J := text_json) p1 healthy fresh) in
  (lists (J := text_json) healthy w [js_of_idea p1] /\ reads healthy /\ writes healthy) /\
  stored (snd (removeProject (J := text_json) "p1" healthy
                 (snd (removeProject (J := text_json) "p1" healthy w))))
  = stored (snd (removeProject (J := text_json) "p1" healthy w)).
Proof.
  cbv zeta.
  assert (H : lists (J := text_json) healthy
                (snd (saveProject (J := text_json) p1 healthy fresh)) [js_of_idea p1])
    by (vm_compute; reflexivity).
  assert (Hw : writes healthy) by (intros k v; reflexivity).
  assert (Hr : reads healthy) by reflexivity.
  split; [ repeat split; assumption | ].
  exact (proj1 (remove_is_idempotent (L := text_json_laws) "p1" _ healthy _ H eq_refl Hr Hw)).
Defined.

Lemma remove_undoes_add_witness :
  (lists (J := text_json) healthy fresh [] /\ count_id (id p1) [] = 0 /\
   reads healthy /\ writes healthy) /\
  lists (J := text_json) healthy
    (snd (removeProject (J := text_json) (id p1) healthy
            (snd (saveProject (J := text_json) p1 healthy fresh)))) [].
Proof.
  assert (H : lists (J := text_json) healthy fresh []) by reflexivity.
  assert (Hw : writes healthy) by (intros k v; reflexivity).
  assert (Hr : reads healthy) by reflexivity.
  split; [ repeat split; assumption | ].
  exact (proj1 (remove_undoes_add (L := text_json_laws) p1 [] healthy fresh
                  H eq_refl eq_refl Hr Hw)).
Defined.

Lemma add_and_remove_commute_witness :
  let w := snd (saveProject (J := text_json) p1 healthy fresh) in
  (id p2 <> "p1" /\ lists (J := text_json) healthy w [js_of_idea p1] /\
   count_id (id p2) [js_of_idea p1] = 0 /\ reads healthy /\ writes healthy) /\
  lists (J := text_json) healthy
    (snd (removeProject (J := text_json) "p1" healthy
            (snd (saveProject (J := text_json) p2 healthy w))))
    (js_of_idea p2 :: without_id "p1" [js_of_idea p1]) /\
  lists (J := text_json) healthy
    (snd (saveProject (J := text_json) p2 healthy
            (snd (removeProject (J := text_json) "p1" healthy w))))
    (js_of_idea p2 :: without_id "p1" [js_of_idea p1]).
Proof.
  cbv zeta.
  assert (Hne : id p2 <> "p1") by discriminate.
  assert (H : lists (J := text_json) healthy
                (snd (saveProject (J := text_json) p1 healthy fresh)) [js_of_idea p1])
    by (vm_compute; reflexivity).
  assert (Hw : writes healthy) by (intros k v; reflexivity).
  assert (Hr : reads healthy) by reflexivity.
  split; [ repeat split; first [ assumption | reflexivity ] | ].
  exact (add_and_remove_commute (L := text_json_laws) p2 "p1" _ healthy _
           Hne H eq_refl eq_refl Hr Hw).
Defined.

(** ** The handlers of App.tsx *)

Section Handlers.
Context {J : JSON}.

(** What [toggleSave] leaves behind is what the operation it chose
    left behind, as far as the storage area and the calls of [setItem]
    go. *)
Lemma toggleSave_collection (a : ProjectIdea) (l : list value) (m : Medium) (w : World) :
  lists m w l -> collection l = true ->
  let w1 := snd (getSavedProjects m w) in
  toggleSave a m w =
  getSavedProjects m
    (if existsb (has_id (id a)) l then snd (removeProject (id a) m w1)
     else snd (saveProject a m w1)).
Proof.
  intros Hl Hc. cbv zeta. rewrite toggleSave_cases, (isProjectSaved_collection _ l m w Hl Hc).
  destruct (existsb (has_id (id a)) l); reflexivity.
Qed.

Lemma lists_after_read (m : Medium) (w : World) (l : list value) :
  lists m w l -> lists m (snd (getSavedProjects m w)) l.
Proof. apply lists_storage, getSavedProjects_frame. Qed.

Context {L : JSONLaws J}.

Lemma toggleSave_lists (a : ProjectIdea) (l : list value) (m m' : Medium) (w : World) :
  lists m w l -> collection l = true -> reads m -> writes m -> reads m' ->
  lists m' (snd (toggleSave a m w))
    (if existsb (has_id (id a)) l then without_id (id a) l else js_of_idea a :: l).
Proof.
  intros Hl Hc Hr Hw Hr'. rewrite (toggleSave_collection a l m w Hl Hc). cbv zeta.
  pose proof (lists_after_read m w l Hl) as Hl1.
  apply lists_storage with (w := if existsb (has_id (id a)) l
                                 then snd (removeProject (id a) m (snd (getSavedProjects m w)))
                                 else snd (saveProject a m (snd (getSavedProjects m w))));
    [ apply getSavedProjects_frame | ].
  destruct (existsb (has_id (id a)) l) eqn:Ha.
  - apply (lists_after_remove (id a) l m m' _ Hl1 Hc (Hw _ _) Hr').
  - apply (lists_after_add a l m m' _ Hl1 Hc Ha (Hw _ _) Hr').
Qed.

(** X9. On a working medium [toggleSave] flips the saved state of the
    Item: from a collection that holds its identifier it leaves the
    collection without it, from one that does not it leaves the Item in
    front of the collection.  The value it hands to [setSavedIdeas] is
    that new collection, and [isProjectSaved] answers afterwards the
    opposite of what it answered before. *)
Theorem toggleSave_flips (a : ProjectIdea) (l : list value) (m : Medium) (w : World) :
  lists m w l -> collection l = true -> reads m -> writes m ->
  let l' := if existsb (has_id (id a)) l then without_id (id a) l
            else js_of_idea a :: l in
  fst (isProjectSaved (id a) m w) = Normal (existsb (has_id (id a)) l) /\
  fst (toggleSave a m w) = Normal (VArr l') /\
  lists m (snd (toggleSave a m w)) l' /\
  fst (isProjectSaved (id a) m (snd (toggleSave a m w)))
  = Normal (negb (existsb (has_id (id a)) l)).
Proof.
  intros Hl Hc Hr Hw l'.
  pose proof (toggleSave_lists a l m m w Hl Hc Hr Hw Hr) as Hl'. fold l' in Hl'.
  assert (Hc' : collection l' = true).
  { subst l'. destruct (existsb (has_id (id a)) l);
      [ apply collection_without_id, Hc | apply collection_add, Hc ]. }
  split; [ rewrite (isProjectSaved_collection _ l m w Hl Hc); reflexivity | ].
  split; [ | split; [ exact Hl' | ] ].
  - rewrite (toggleSave_collection a l m w Hl Hc). cbv zeta.
    rewrite (toggleSave_collection a l m w Hl Hc) in Hl'. cbv zeta in Hl'.
    unfold lists in Hl'. rewrite <- Hl'. symmetry.
    apply getSavedProjects_storage, getSavedProjects_frame.
  - rewrite (isProjectSaved_collection _ l' m _ Hl' Hc'). cbn [fst]. f_equal.
    subst l'. destruct (existsb (has_id (id a)) l) eqn:Ha; cbn [negb].
    + apply without_id_gone.
    + cbn [existsb]. rewrite has_id_js_of_idea, String.eqb_refl. reflexivity.
Qed.

(** X10. Two clicks on the bookmark, on a working medium: from a
    collection that does not hold the identifier of the Item they give
    back the collection; from one that holds it they leave the Item of
    the second click in front of the other Items, wherever the saved one
    was and whatever its payload was. *)
Theorem toggleSave_twice (a : ProjectIdea) (l : list value) (m : Medium) (w : World) :
  lists m w l -> collection l = true -> reads m -> writes m ->
  fst (toggleSave a m (snd (toggleSave a m w)))
  = Normal (VArr (if existsb (has_id (id a)) l
                  then js_of_idea a :: without_id (id a) l else l)).
Proof.
  intros Hl Hc Hr Hw.
  destruct (toggleSave_flips a l m w Hl Hc Hr Hw) as (_ & _ & Hl1 & _).
  cbv zeta in Hl1.
  assert (Hc1 : collection (if existsb (has_id (id a)) l then without_id (id a) l
                            else js_of_idea a :: l) = true).
  { destruct (existsb (has_id (id a)) l);
      [ apply collection_without_id, Hc | apply collection_add, Hc ]. }
  destruct (toggleSave_flips a _ m _ Hl1 Hc1 Hr Hw) as (_ & H2 & _).
  cbv zeta in H2. rewrite H2. do 2 f_equal.
  destruct (existsb (has_id (id a)) l) eqn:Ha.
  - rewrite without_id_gone. reflexivity.
  - cbn [existsb]. rewrite has_id_js_of_idea, String.eqb_refl. cbn [orb].
    rewrite without_id_cons_same. apply without_id_absent, Ha.
Qed.

End Handlers.

Lemma toggleSave_flips_witness :
  (lists (J := text_json) healthy fresh [] /\ reads healthy /\ writes healthy) /\
  fst (toggleSave (J := text_json) p1 healthy fresh) = Normal (VArr [js_of_idea p1]) /\
  fst (isProjectSaved (J := text_json) (id p1) healthy
         (snd (toggleSave (J := text_json) p1 healthy fresh))) = Normal true.
Proof.
  assert (H : lists (J := text_json) healthy fresh []) by reflexivity.
  assert (Hw : writes healthy) by (intros k v; reflexivity).
  assert (Hr : reads healthy) by reflexivity.
  split; [ repeat split; assumption | ].
  destruct (toggleSave_flips (L := text_json_laws) p1 [] healthy fresh H eq_refl Hr Hw)
    as (_ & Ht & _ & Hs).
  split; [ exact Ht | exact Hs ].
Defined.

Lemma toggleSave_twice_witness :
  let w := snd (saveProject (J := text_json) p1 healthy
                  (snd (saveProject (J := text_json) p2 healthy fresh))) in
  (lists (J := text_json) healthy w [js_of_idea p1; js_of_idea p2] /\
   reads healthy /\ writes healthy) /\
  fst (toggleSave (J := text_json) p2 healthy
         (snd (toggleSave (J := text_json) p2 healthy w)))
  = Normal (VArr (if existsb (has_id (id p2)) [js_of_idea p1; js_of_idea p2]
                  then js_of_idea p2 :: without_id (id p2) [js_of_idea p1; js_of_idea p2]
                  else [js_of_idea p1; js_of_idea p2])).
Proof.
  cbv zeta.
  assert (H : lists (J := text_json) healthy
                (snd (saveProject (J := text_json) p1 healthy
                        (snd (saveProject (J := text_json) p2 healthy fresh))))
                [js_of_idea p1; js_of_idea p2]) by (vm_compute; reflexivity).
  assert (Hw : writes healthy) by (intros k v; reflexivity).
  assert (Hr : reads healthy) by reflexivity.
  split; [ repeat split; assumption | ].
  exact (toggleSave_twice (L := text_json_laws) p2 _ healthy _ H eq_refl Hr Hw).
Defined.

Lemma Array_some_no_null (i : string) (l : list value) :
  existsb is_null l = false -> exists b, Array_some (id_is i) l = Normal b.
Proof.
  induction l as [ | x l IH ]; [ eexists; reflexivity | ].
  cbn [existsb]. intros Hp. apply orb_false_iff in Hp. destruct Hp as [Hx Hl].
  cbn [Array_some]. rewrite id_is_has_id by (intros ->; discriminate Hx).
  destruct (has_id i x); [ eexists; reflexivity | apply IH, Hl ].
Qed.

Section HandlersOnAnyWorld.
Context {J : JSON}.

Lemma saveProject_refused (a : ProjectIdea) (m : Medium) (w : World) :
  (forall v, setItem_throws m STORAGE_KEY v = true) ->
  localStorage (snd (saveProject a m w)) = localStorage w.
Proof.
  intros Hm. pose proof (proj1 (getSavedProjects_frame m w)) as Hs.
  destruct (saveProject_outcome a m w)
    as [ (l & _ & _ & H) | [ (e & H) | [ (l & _ & H) | (l & Hl & H) ] ] ];
    try (rewrite H; exact Hs).
  exfalso. pose proof (saveProject_cases a m w) as Hc. cbv zeta in Hc.
  rewrite Hl in Hc. cbn [some_of] in Hc.
  destruct (Array_some (id_is (id a)) l) as [ [ | ] | e ];
    [ | cbn [cons_spread iterate] in Hc; rewrite Hm in Hc | ];
    rewrite H in Hc; discriminate Hc.
Qed.

Lemma removeProject_refused (i : string) (m : Medium) (w : World) :
  (forall v, setItem_throws m STORAGE_KEY v = true) ->
  localStorage (snd (removeProject i m w)) = localStorage w.
Proof.
  intros Hm. pose proof (proj1 (getSavedProjects_frame m w)) as Hs.
  rewrite removeProject_cases. cbv zeta.
  destruct (fst (getSavedProjects m w)) as [ saved | e ]; [ | exact Hs ].
  destruct (filter_of saved (id_is_not i)) as [ updated | e ]; [ | exact Hs ].
  rewrite Hm. exact Hs.
Qed.

(** X11. On a medium that refuses every write to the key of the store,
    nothing the user does changes the storage area: [saveProject],
    [removeProject], [toggleSave] and [handleRemove] leave it as it
    was, and a handler that ends normally hands to [setSavedIdeas]
    what [getSavedProjects] returned before the click. *)
Theorem refused_writes_change_nothing (a : ProjectIdea) (m : Medium) (w : World) :
  (forall v, setItem_throws m STORAGE_KEY v = true) ->
  localStorage (snd (saveProject a m w)) = localStorage w /\
  localStorage (snd (removeProject (id a) m w)) = localStorage w /\
  localStorage (snd (toggleSave a m w)) = localStorage w /\
  localStorage (snd (handleRemove a m w)) = localStorage w /\
  (is_normal (fst (toggleSave a m w)) = true ->
   fst (toggleSave a m w) = fst (getSavedProjects m w)) /\
  fst (handleRemove a m w) = fst (getSavedProjects m w).
Proof.
  intros Hm. pose proof (proj1 (getSavedProjects_frame m w)) as Hs.
  pose proof (isProjectSaved_world (id a) m w) as Hw1.
  assert (Htoggle : localStorage (snd (toggleSave a m w)) = localStorage w /\
                    (is_normal (fst (toggleSave a m w)) = true ->
                     fst (toggleSave a m w) = fst (getSavedProjects m w))).
  { rewrite toggleSave_cases.
    destruct (isProjectSaved (id a) m w) as [ [ [ | ] | e ] w1 ]; cbn [snd] in Hw1; subst w1.
    - assert (H : localStorage (snd (removeProject (id a) m (snd (getSavedProjects m w))))
                  = localStorage w)
        by (rewrite removeProject_refused by exact Hm; exact Hs).
      split; [ rewrite (proj1 (getSavedProjects_frame m _)); exact H | ].
      intros _. apply getSavedProjects_storage, H.
    - assert (H : localStorage (snd (saveProject a m (snd (getSavedProjects m w))))
                  = localStorage w)
        by (rewrite saveProject_refused by exact Hm; exact Hs).
      split; [ rewrite (proj1 (getSavedProjects_frame m _)); exact H | ].
      intros _. apply getSavedProjects_storage, H.
    - split; [ exact Hs | discriminate ]. }
  split; [ apply saveProject_refused, Hm | ].
  split; [ apply removeProject_refused, Hm | ].
  split; [ apply Htoggle | ].
  rewrite handleRemove_cases.
  split; [ rewrite (proj1 (getSavedProjects_frame m _)); apply removeProject_refused, Hm | ].
  split; [ apply Htoggle | ].
  apply getSavedProjects_storage, removeProject_refused, Hm.
Qed.

(** X12. [toggleSave] throws exactly when the call of [some] on what
    [getSavedProjects] returned throws, with the same exception; it
    then leaves the storage area as it was, calls [setItem] not at all
    and never reaches [setSavedIdeas].  On a value that is not an array
    this is always the case; on an array without a null it never is. *)
Theorem toggleSave_throws_exactly
    (a : ProjectIdea) (v : value) (m : Medium) (w : World) :
  fst (getSavedProjects m w) = Normal v ->
  (forall e, fst (toggleSave a m w) = Throw e <-> some_of v (id_is (id a)) = Throw e) /\
  (is_normal (fst (toggleSave a m w)) = false ->
   localStorage (snd (toggleSave a m w)) = localStorage w /\
   setItem_calls (snd (toggleSave a m w)) = setItem_calls w) /\
  ((forall l, v <> VArr l) -> fst (toggleSave a m w) = Throw TypeError) /\
  (poisoned v = false -> is_normal (fst (toggleSave a m w)) = true).
Proof.
  intros Hv. rewrite toggleSave_cases, isProjectSaved_cases, Hv.
  destruct (getSavedProjects_frame m w) as [Hs Hc].
  assert (Hnormal : forall w', is_normal (fst (getSavedProjects m w')) = true).
  { intros w'. destruct (getSavedProjects_total m w') as [x Hx]. rewrite Hx. reflexivity. }
  split; [ | split; [ | split ] ].
  - intros e. destruct (some_of v (id_is (id a))) as [ [ | ] | e' ]; cbn [fst];
      [ | | split; intros H; injection H as ->; reflexivity ];
      (split; [ intros H | discriminate ]);
      match type of H with
      | fst (getSavedProjects m ?w') = _ =>
          pose proof (Hnormal w') as Hn; rewrite H in Hn; discriminate Hn
      end.
  - destruct (some_of v (id_is (id a))) as [ [ | ] | e' ]; cbn [fst snd];
      [ rewrite Hnormal; discriminate | rewrite Hnormal; discriminate | auto ].
  - intros Hnot. destruct v as [ | b | n | s | l | props ]; try reflexivity.
    exfalso. exact (Hnot l eq_refl).
  - intros Hp. destruct v as [ | b | n | s | l | props ]; try discriminate Hp.
    cbn [poisoned] in Hp. cbn [some_of].
    destruct (Array_some_no_null (id a) l Hp) as [ [ | ] -> ]; apply Hnormal.
Qed.

End HandlersOnAnyWorld.

Lemma refused_writes_change_nothing_witness :
  (forall v, setItem_throws full STORAGE_KEY v = true) /\
  localStorage (snd (toggleSave (J := text_json) p1 full fresh)) = localStorage fresh /\
  fst (handleRemove (J := text_json) p1 full fresh)
  = fst (getSavedProjects (J := text_json) full fresh).
Proof.
  assert (H : forall v, setItem_throws full STORAGE_KEY v = true) by (intros v; reflexivity).
  split; [ exact H | ].
  destruct (refused_writes_change_nothing (J := text_json) p1 full fresh H)
    as (_ & _ & Ht & _ & _ & Hh).
  split; [ exact Ht | exact Hh ].
Defined.

Lemma toggleSave_throws_exactly_witness :
  fst (getSavedProjects (J := text_json) healthy foreign) = Normal (VObj []) /\
  (forall l, VObj [] <> VArr l) /\
  fst (toggleSave (J := text_json) p1 healthy foreign) = Throw TypeError.
Proof.
  assert (H : fst (getSavedProjects (J := text_json) healthy foreign) = Normal (VObj []))
    by reflexivity.
  assert (Hn : forall l, VObj [] <> VArr l) by (intros l; discriminate).
  split; [ exact H | split; [ exact Hn | ] ].
  exact (proj1 (proj2 (proj2 (toggleSave_throws_exactly (J := text_json) p1 _ healthy
                                foreign H))) Hn).
Defined.

Section HandlersKeepTheInvariant.
Context {J : JSON} {L : JSONLaws J}.

(** X13. [handleRemove] ends normally on every world and medium.  On a
    collection and a working medium it hands to [setSavedIdeas] the
    collection without the Items that have the identifier of the card,
    whatever their payload, and [isProjectSaved] answers false for that
    identifier afterwards. *)
Theorem handleRemove_removes (a : ProjectIdea) (l : list value) (m : Medium) (w : World) :
  is_normal (fst (handleRemove a m w)) = true /\
  (lists m w l -> collection l = true -> reads m -> writes m ->
   fst (handleRemove a m w) = Normal (VArr (without_id (id a) l)) /\
   fst (isProjectSaved (id a) m (snd (handleRemove a m w))) = Normal false).
Proof.
  rewrite handleRemove_cases. split.
  - destruct (getSavedProjects_total m (snd (removeProject (id a) m w))) as [x Hx].
    rewrite Hx. reflexivity.
  - intros Hl Hc Hr Hw.
    pose proof (lists_after_remove (id a) l m m w Hl Hc (Hw _ _) Hr) as Hl1.
    split; [ exact Hl1 | ].
    rewrite (isProjectSaved_collection (id a) (without_id (id a) l) m).
    + cbn [fst]. rewrite without_id_gone. reflexivity.
    + apply lists_after_read, Hl1.
    + apply collection_without_id, Hc.
Qed.

Lemma handle_persists_collection (i : interaction) (m : Medium) (w : World) :
  persists_collection w ->
  persists_collection (snd (handle i m w)) /\
  exists l, fst (handle i m w) = Normal (VArr l) /\ collection l = true /\
            forall j, count_id j l <= 1.
Proof.
  intros Hw. destruct (persists_collection_lists w m Hw) as (l & Hl & Hc & _).
  assert (Hw1 : persists_collection (snd (getSavedProjects m w)))
    by (apply (persists_collection_storage w); [ apply getSavedProjects_frame | exact Hw ]).
  assert (Hend : forall w', persists_collection w' ->
                 persists_collection (snd (getSavedProjects m w')) /\
                 exists l', fst (getSavedProjects m w') = Normal (VArr l') /\
                            collection l' = true /\ forall j, count_id j l' <= 1).
  { intros w' Hw'. split.
    - apply (persists_collection_storage w'); [ apply getSavedProjects_frame | exact Hw' ].
    - exact (persists_collection_lists w' m Hw'). }
  destruct i as [ a | a ]; cbn [handle].
  - rewrite (toggleSave_collection a l m w Hl Hc). cbv zeta. apply Hend.
    destruct (existsb (has_id (id a)) l).
    + exact (perform_persists_collection (Remove (id a)) m _ Hw1).
    + exact (perform_persists_collection (Add a) m _ Hw1).
  - rewrite handleRemove_cases. apply Hend.
    exact (perform_persists_collection (Remove (id a)) m _ Hw).
Qed.

Lemma ui_reachable_persists_collection (w : World) :
  ui_reachable w -> persists_collection w.
Proof.
  induction 1 as [ w Hw | w i m _ IH ]; [ left; exact Hw | ].
  apply handle_persists_collection, IH.
Qed.

(** X14. The application alone never brings the store into a state
    where a handler throws.  In every world reached from one with
    nothing persisted, by any sequence of clicks on bookmarks and bins,
    each on a medium in any state, the next handler ends normally and
    hands to [setSavedIdeas] a collection that holds at most one Item
    with any given identifier. *)
Theorem handlers_safe_on_own_data (w : World) (i : interaction) (m : Medium) :
  ui_reachable w ->
  exists l, fst (handle i m w) = Normal (VArr l) /\ collection l = true /\
            forall j, count_id j l <= 1.
Proof.
  intros Hw. apply handle_persists_collection, ui_reachable_persists_collection, Hw.
Qed.

End HandlersKeepTheInvariant.

Lemma handleRemove_removes_witness :
  let w := snd (saveProject (J := text_json) p1 healthy fresh) in
  (lists (J := text_json) healthy w [js_of_idea p1] /\ reads healthy /\ writes healthy) /\
  fst (handleRemove (J := text_json) p1 healthy w)
  = Normal (VArr (without_id (id p1) [js_of_idea p1])) /\
  fst (isProjectSaved (J := text_json) (id p1) healthy
         (snd (handleRemove (J := text_json) p1 healthy w))) = Normal false.
Proof.
  cbv zeta.
  assert (H : lists (J := text_json) healthy
                (snd (saveProject (J := text_json) p1 healthy fresh)) [js_of_idea p1])
    by (vm_compute; reflexivity).
  assert (Hw : writes healthy) by (intros k v; reflexivity).
  assert (Hr : reads healthy) by reflexivity.
  split; [ repeat split; assumption | ].
  exact (proj2 (handleRemove_removes (L := text_json_laws) p1 _ healthy _) H eq_refl Hr Hw).
Defined.

Lemma handlers_safe_on_own_data_witness :
  let w := snd (handle (J := text_json) (Discard p2) full
                  (snd (handle (J := text_json) (Toggle p1) healthy fresh))) in
  ui_reachable (J := text_json) w /\
  exists l, fst (handle (J := text_json) (Toggle p1) healthy w) = Normal (VArr l) /\
            collection l = true /\ forall j, count_id j l <= 1.
Proof.
  cbv zeta.
  assert (Hw : ui_reachable (J := text_json)
                 (snd (handle (J := text_json) (Discard p2) full
                         (snd (handle (J := text_json) (Toggle p1) healthy fresh))))).
  { do 2 apply ui_reachable_step. apply ui_reachable_empty. reflexivity. }
  split; [ exact Hw | ].
  exact (handlers_safe_on_own_data (L := text_json_laws) _ (Toggle p1) healthy Hw).
Defined.

Section Silence.
Context {J : JSON} {L : JSONLaws J}.

Lemma getSavedProjects_silent (m : Medium) (w : World) :
  persists_collection w -> reads m ->
  exists l, getSavedProjects m w = (Normal (VArr l), w) /\ collection l = true.
Proof.
  intros Hw Hm. rewrite getSavedProjects_cases, Hm.
  destruct Hw as [ Hw | (l & Hc & _ & Hw) ]; rewrite Hw.
  - exists []. split; reflexivity.
  - exists l. rewrite truthy_stringify, parse_stringify
      by exact (collection_well_formed l Hc). split; [ reflexivity | exact Hc ].
Qed.

(** X15. On a persisted collection and a working medium the store is
    silent: [getSavedProjects] and [isProjectSaved] leave the world
    exactly as it was, and [saveProject], [removeProject] and the two
    handlers send nothing to the console. *)
Theorem silent_on_success (a : ProjectIdea) (i : string) (m : Medium) (w : World) :
  persists_collection w -> reads m -> writes m ->
  snd (getSavedProjects m w) = w /\
  snd (isProjectSaved i m w) = w /\
  console (snd (saveProject a m w)) = console w /\
  console (snd (removeProject i m w)) = console w /\
  console (snd (toggleSave a m w)) = console w /\
  console (snd (handleRemove a m w)) = console w.
Proof.
  intros Hw Hr Hwr.
  destruct (getSavedProjects_silent m w Hw Hr) as (l & Hget & Hc).
  assert (Hl : lists m w l) by (unfold lists; rewrite Hget; reflexivity).
  assert (Hsave : console (snd (saveProject a m w)) = console w).
  { destruct (existsb (has_id (id a)) l) eqn:Ha.
    - rewrite (saveProject_present a l m w Hl Hc Ha), Hget. reflexivity.
    - rewrite (saveProject_absent a l m w Hl Hc Ha). cbv zeta.
      rewrite (Hwr STORAGE_KEY), Hget. reflexivity. }
  assert (Hremove : forall j, console (snd (removeProject j m w)) = console w).
  { intros j. rewrite (removeProject_collection j l m w Hl Hc). cbv zeta.
    rewrite (Hwr STORAGE_KEY), Hget. reflexivity. }
  assert (Hread : forall w', persists_collection w' ->
                  snd (getSavedProjects m w') = w').
  { intros w' Hw'. destruct (getSavedProjects_silent m w' Hw' Hr) as (l' & H & _).
    rewrite H. reflexivity. }
  split; [ rewrite Hget; reflexivity | ].
  split; [ rewrite isProjectSaved_world, Hget; reflexivity | ].
  split; [ exact Hsave | split; [ apply Hremove | split ] ].
  - rewrite (toggleSave_collection a l m w Hl Hc). cbv zeta. rewrite Hget. cbn [snd].
    destruct (existsb (has_id (id a)) l).
    + rewrite Hread; [ apply Hremove | ].
      exact (perform_persists_collection (Remove (id a)) m w Hw).
    + rewrite Hread; [ exact Hsave | ].
      exact (perform_persists_collection (Add a) m w Hw).
  - rewrite handleRemove_cases, Hread; [ apply Hremove | ].
    exact (perform_persists_collection (Remove (id a)) m w Hw).
Qed.

End Silence.

Lemma silent_on_success_witness :
  (persists_collection (J := text_json) fresh /\ reads healthy /\ writes healthy) /\
  console (snd (toggleSave (J := text_json) p1 healthy fresh)) = console fresh.
Proof.
  assert (H : persists_collection (J := text_json) fresh) by (left; reflexivity).
  assert (Hw : writes healthy) by (intros k v; reflexivity).
  assert (Hr : reads healthy) by reflexivity.
  split; [ repeat split; assumption | ].
  destruct (silent_on_success (L := text_json_laws) p1 "p1" healthy fresh H Hr Hw)
    as (_ & _ & _ & _ & Ht & _).
  exact Ht.
Defined.
